(** * Lasso selection over a projected point cloud

    A shallow embedding of the screen-space selection pipeline of the
    point-cloud viewer:

    - [src/utils/pointInPolygon.ts]: [isPointInPolygon], [getPolygonBounds],
      [batchPointsInPolygon];
    - [src/utils/projection.ts]: [projectPointsToScreen];
    - [src/components/LassoSelector.tsx]: the pointer handlers that capture
      the lasso polygon;
    - [src/hooks/usePointCloud.ts]: [setPointColors].

    JavaScript numbers are IEEE-754 binary64 values.  They are modelled by the
    standard library's [spec_float] with precision 53 and maximal exponent
    1024, so every arithmetic operation below rounds exactly as the source
    does.  Typed arrays live in a heap of buffers; a store into a
    [Float32Array] rounds to single precision, a store past the end of a typed
    array is dropped and a load past the end yields [undefined]. *)

From Stdlib Require Import ZArith List Bool Lia Permutation.
From Stdlib Require Import Floats.SpecFloat.
From stdpp Require Import base option list gmap.

Local Open Scope nat_scope.

(** ** JavaScript numbers *)

Module Number.

Definition number : Type := spec_float.

Definition prec : Z := 53.
Definition emax : Z := 1024.

Definition add : number -> number -> number := SFadd prec emax.
Definition sub : number -> number -> number := SFsub prec emax.
Definition mul : number -> number -> number := SFmul prec emax.
Definition div : number -> number -> number := SFdiv prec emax.

(** [a < b], [a > b], [a <= b] and [a === b] on numbers.  All four are
    false as soon as one operand is [NaN]. *)
Definition lt (a b : number) : bool := SFltb a b.
Definition gt (a b : number) : bool := lt b a.
Definition le (a b : number) : bool := SFleb a b.
Definition strict_eq (a b : number) : bool := SFeqb a b.

Definition NaN : number := S754_nan.
Definition Infinity : number := S754_infinity false.
Definition neg_Infinity : number := S754_infinity true.

(** The number [m * 2^e], rounded to binary64 (exact for the literals used
    in this development). *)
Definition dyadic (m e : Z) : number := binary_normalize prec emax m e false.
Definition of_Z (z : Z) : number := dyadic z 0.

Definition zero : number := of_Z 0.
Definition one : number := of_Z 1.
Definition two : number := of_Z 2.
Definition sixteen : number := of_Z 16.

Definition is_nan (a : number) : bool :=
  match a with S754_nan => true | _ => false end.

Definition is_finite (a : number) : bool :=
  match a with S754_zero _ | S754_finite _ _ _ => true | _ => false end.

(** [Math.fround]: the conversion applied by a store into a
    [Float32Array].  The value is rounded to binary32 (precision 24,
    maximal exponent 128, ties to even) and the result, which is a binary64
    value too, is put back in binary64 normal form. *)
Definition fround (a : number) : number :=
  match a with
  | S754_finite s m e =>
      match binary_round 24 128 s m e with
      | S754_finite s' m' e' => binary_round prec emax s' m' e'
      | r => r
      end
  | _ => a
  end.

(** Reading a slot that may be [undefined].  Every use of such a value in
    the modelled code is an arithmetic operation or a comparison, which
    converts [undefined] to [NaN]. *)
Definition of_undefined (o : option number) : number := default NaN o.

End Number.

Import Number.

(** ** Points, polygons and the geometric predicate *)

Record Point2D : Type := mkPoint2D { x : number; y : number }.

(** [polygon[i]] for an index inside the array.  Reading a coordinate of a
    vertex past the end would throw; the loops below never leave the array,
    so the default is not reached. *)
Definition vertex (polygon : list Point2D) (i : nat) : Point2D :=
  nth i polygon (mkPoint2D NaN NaN).

(** The test of one directed edge, from vertex [(xj, yj)] to vertex
    [(xi, yi)]:
    [((yi > y) !== (yj > y)) && (x < (xj - xi) * (y - yi) / (yj - yi) + xi)]. *)
Definition crosses (px py xi yi xj yj : number) : bool :=
  xorb (gt yi py) (gt yj py)
  && lt px (add (div (mul (sub xj xi) (sub py yi)) (sub yj yi)) xi).

(** One turn of [for (let i = 0, j = n - 1; i < n; j = i++)]: the loop
    state is [(inside, j)]. *)
Definition ray_step (polygon : list Point2D) (point : Point2D)
    (st : bool * nat) (i : nat) : bool * nat :=
  let '(inside, j) := st in
  let xi := x (vertex polygon i) in
  let yi := y (vertex polygon i) in
  let xj := x (vertex polygon j) in
  let yj := y (vertex polygon j) in
  (if crosses (x point) (y point) xi yi xj yj then negb inside else inside, i).

Definition isPointInPolygon (point : Point2D) (polygon : list Point2D) : bool :=
  let n := length polygon in
  if n <? 3 then false
  else fst (fold_left (ray_step polygon point) (seq 0 n) (false, n - 1)).

(** ** Bounding box *)

Record Bounds : Type := mkBounds {
  minX : number; maxX : number; minY : number; maxY : number
}.

Definition bounds_step (b : Bounds) (p : Point2D) : Bounds :=
  let minX := if lt (x p) (minX b) then x p else minX b in
  let maxX := if gt (x p) (maxX b) then x p else maxX b in
  let minY := if lt (y p) (minY b) then y p else minY b in
  let maxY := if gt (y p) (maxY b) then y p else maxY b in
  mkBounds minX maxX minY maxY.

Definition empty_bounds : Bounds :=
  mkBounds Infinity neg_Infinity Infinity neg_Infinity.

Definition getPolygonBounds (polygon : list Point2D) : Bounds :=
  fold_left bounds_step polygon empty_bounds.

(** The prefilter of the classifier:
    [x < bounds.minX || x > bounds.maxX || y < bounds.minY || y > bounds.maxY]. *)
Definition outside_bounds (b : Bounds) (px py : number) : bool :=
  lt px (minX b) || gt px (maxX b) || lt py (minY b) || gt py (maxY b).

(** ** Typed arrays and the heap

    A typed array is an object with identity: the projector and the
    classifier receive references to the caller's buffers and allocate their
    own.  The heap maps a reference to the contents of its buffer. *)

Inductive exn : Type := TypeError | RangeError.

Inductive result (A : Type) : Type :=
  | Return (a : A)
  | Raise (e : exn).
Arguments Return {A} a.
Arguments Raise {A} e.

Definition loc : Type := positive.

Inductive typed_array : Type :=
  | Float32Array (elems : list number)
  | Uint8Array (elems : list Z).

Abbreviation heap := (gmap loc typed_array).

(** Computations over the heap that may throw. *)
Definition M (A : Type) : Type := heap -> result (A * heap).

Definition ret {A} (a : A) : M A := fun h => Return (a, h).

Definition bind {A B} (m : M A) (k : A -> M B) : M B :=
  fun h => match m h with
           | Return (a, h') => k a h'
           | Raise e => Raise e
           end.

Declare Scope heap_scope.
Delimit Scope heap_scope with heap.
Notation "'let*' v ':=' m 'in' k" := (bind m (fun v => k))
  (at level 10, v pattern, m at level 100, k at level 200) : heap_scope.
Notation "m ';;' k" := (bind m (fun _ => k))
  (at level 100, k at level 200, right associativity) : heap_scope.
Local Open Scope heap_scope.

(** [new Float32Array(n)] and [new Uint8Array(n)]: a fresh, zero-filled
    buffer. *)
Definition alloc (b : typed_array) : M loc :=
  fun h => let l := fresh (dom h) in Return (l, <[l := b]> h).

Definition newFloat32Array (n : nat) : M loc :=
  alloc (Float32Array (replicate n zero)).

Definition newUint8Array (n : nat) : M loc :=
  alloc (Uint8Array (replicate n 0%Z)).

(** [a.length], [a[i]] and [a[i] = v] on a [Float32Array]. *)
Definition f32_length (a : loc) : M nat :=
  fun h => match h !! a with
           | Some (Float32Array v) => Return (length v, h)
           | _ => Raise TypeError
           end.

Definition f32_get (a : loc) (i : nat) : M number :=
  fun h => match h !! a with
           | Some (Float32Array v) => Return (of_undefined (v !! i), h)
           | _ => Raise TypeError
           end.

Definition f32_set (a : loc) (i : nat) (v : number) : M unit :=
  fun h => match h !! a with
           | Some (Float32Array l) =>
               Return (tt, <[a := Float32Array (<[i := fround v]> l)]> h)
           | _ => Raise TypeError
           end.

(** [target.set(source)] between two [Float32Array]s: the elements of
    [source] overwrite the front of [target]; a source longer than the target
    is a [RangeError]. *)
Definition f32_set_from (target source : loc) : M unit :=
  fun h => match h !! target, h !! source with
           | Some (Float32Array t), Some (Float32Array s) =>
               if length t <? length s then Raise RangeError
               else Return (tt, <[target := Float32Array (s ++ drop (length s) t)]> h)
           | _, _ => Raise TypeError
           end.

(** [a.length], [a[i]] and [a[i] = v] on a [Uint8Array].  A slot past the
    end reads as [undefined], which is falsy like [0]. *)
Definition u8_length (a : loc) : M nat :=
  fun h => match h !! a with
           | Some (Uint8Array v) => Return (length v, h)
           | _ => Raise TypeError
           end.

Definition u8_get (a : loc) (i : nat) : M Z :=
  fun h => match h !! a with
           | Some (Uint8Array v) => Return (default 0%Z (v !! i), h)
           | _ => Raise TypeError
           end.

Definition u8_set (a : loc) (i : nat) (v : Z) : M unit :=
  fun h => match h !! a with
           | Some (Uint8Array l) =>
               Return (tt, <[a := Uint8Array (<[i := (v mod 256)%Z]> l)]> h)
           | _ => Raise TypeError
           end.

(** A counting loop with loop-carried state [s]: [body i s] runs for each
    [i] of [idx] in order. *)
Fixpoint for_each {S : Type} (idx : list nat) (body : nat -> S -> M S) (s : S)
    : M S :=
  match idx with
  | [] => ret s
  | i :: idx' => let* s' := body i s in for_each idx' body s'
  end.

(** The number of turns of [for (let i = 0; i < len / k; i++)]: [len / k] is
    a fraction when [k] does not divide [len]. *)
Definition turns (len k : nat) : nat := (len + (k - 1)) / k.

(** ** The batch classifier *)

(** The ray-casting loop over the flattened vertex arrays [polyX], [polyY];
    the loop state is [(inside, k)]. *)
Definition batch_ray_step (polyX polyY : loc) (px py : number)
    (j : nat) (st : bool * nat) : M (bool * nat) :=
  let '(inside, k) := st in
  let* xi := f32_get polyX j in
  let* yi := f32_get polyY j in
  let* xk := f32_get polyX k in
  let* yk := f32_get polyY k in
  ret (if crosses px py xi yi xk yk then negb inside else inside, j).

Definition batch_point_step (screenPositions results polyX polyY : loc)
    (bounds : Bounds) (n : nat) (i : nat) (_ : unit) : M unit :=
  let* px := f32_get screenPositions (i * 2) in
  let* py := f32_get screenPositions (i * 2 + 1) in
  if outside_bounds bounds px py then u8_set results i 0
  else
    let* st := for_each (seq 0 n) (batch_ray_step polyX polyY px py) (false, n - 1) in
    u8_set results i (if fst st then 1 else 0)%Z.

Definition batch_copy_step (polygon : list Point2D) (polyX polyY : loc)
    (i : nat) (_ : unit) : M unit :=
  f32_set polyX i (x (vertex polygon i));;
  f32_set polyY i (y (vertex polygon i)).

(** [pointCount = screenPositions.length / 2]; [new Uint8Array(pointCount)]
    truncates a fractional count. *)
Definition batchPointsInPolygon (screenPositions : loc) (polygon : list Point2D)
    : M loc :=
  let* len := f32_length screenPositions in
  let* results := newUint8Array (len / 2) in
  if length polygon <? 3 then ret results
  else
    let bounds := getPolygonBounds polygon in
    let n := length polygon in
    let* polyX := newFloat32Array n in
    let* polyY := newFloat32Array n in
    for_each (seq 0 n) (batch_copy_step polygon polyX polyY) tt;;
    for_each (seq 0 (turns len 2))
      (batch_point_step screenPositions results polyX polyY bounds n) tt;;
    ret results.

(** ** The screen projector *)

Record Matrix4 : Type := mkMatrix4 { elements : list number }.

Record Camera : Type := mkCamera {
  projectionMatrix : Matrix4;
  matrixWorldInverse : Matrix4
}.

(** The part of the three.js library the projector calls:
    [m.multiplyMatrices(a, b)] sets [m] to the product of [a] and [b]. *)
Class THREE : Type := { multiplyMatrices : Matrix4 -> Matrix4 -> Matrix4 }.

(** [e[k]] on the plain array of matrix elements. *)
Definition elem (m : Matrix4) (k : nat) : number :=
  of_undefined (elements m !! k).

(** [e[a] * x + e[b] * y + e[c] * z + e[d]], summed from the left. *)
Definition row (e : nat -> number) (a b c d : nat) (px py pz : number)
    : number :=
  add (add (add (mul (e a) px) (mul (e b) py)) (mul (e c) pz)) (e d).

Definition project_step (positions screenPositions : loc) (e : nat -> number)
    (halfWidth halfHeight : number) (i : nat) (_ : unit) : M unit :=
  let* px := f32_get positions (i * 3) in
  let* py := f32_get positions (i * 3 + 1) in
  let* pz := f32_get positions (i * 3 + 2) in
  let w := row e 3 7 11 15 px py pz in
  if strict_eq w zero then
    f32_set screenPositions (i * 2) neg_Infinity;;
    f32_set screenPositions (i * 2 + 1) neg_Infinity
  else
    let invW := div one w in
    let ndcX := mul (row e 0 4 8 12 px py pz) invW in
    let ndcY := mul (row e 1 5 9 13 px py pz) invW in
    f32_set screenPositions (i * 2) (mul (add ndcX one) halfWidth);;
    f32_set screenPositions (i * 2 + 1) (mul (sub one ndcY) halfHeight).

(** [pointCount = positions.length / 3]; [new Float32Array(pointCount * 2)]
    truncates a fractional length. *)
Definition projectPointsToScreen `{THREE} (positions : loc) (camera : Camera)
    (width height : number) : M loc :=
  let* len := f32_length positions in
  let* screenPositions := newFloat32Array (len * 2 / 3) in
  let mvpMatrix :=
    multiplyMatrices (projectionMatrix camera) (matrixWorldInverse camera) in
  let e := elem mvpMatrix in
  let halfWidth := div width two in
  let halfHeight := div height two in
  for_each (seq 0 (turns len 3))
    (project_step positions screenPositions e halfWidth halfHeight) tt;;
  ret screenPositions.

(** The three.js implementation of [Matrix4.multiplyMatrices] on column-major
    element arrays: entry [(r, c)] of the product is stored at [4 * c + r].
    It is the instance used to run the projector on concrete cameras. *)
Definition three_multiplyMatrices (a b : Matrix4) : Matrix4 :=
  let entry k :=
    let r := k mod 4 in
    let c := k / 4 in
    add (add (add (mul (elem a r) (elem b (4 * c)))
                  (mul (elem a (4 + r)) (elem b (4 * c + 1))))
             (mul (elem a (8 + r)) (elem b (4 * c + 2))))
        (mul (elem a (12 + r)) (elem b (4 * c + 3))) in
  mkMatrix4 (map entry (seq 0 16)).

Definition three_js : THREE := {| multiplyMatrices := three_multiplyMatrices |}.

(** ** Lasso capture

    The refs of [LassoSelector]: [isDrawing.current] and [pathRef.current].
    The calls to [drawPath] only paint the overlay canvas and are left out. *)

Module DOMRect.
Record t : Type := mk { left : number; top : number }.
End DOMRect.

Record MouseEvent : Type := mkMouseEvent { clientX : number; clientY : number }.

Record LassoSelector : Type := mkLassoSelector {
  isDrawing : bool;
  pathRef : list Point2D
}.

(** The pointer position relative to the canvas:
    [e.clientX - rect.left], [e.clientY - rect.top]. *)
Definition pointer (rect : DOMRect.t) (e : MouseEvent) : Point2D :=
  mkPoint2D (sub (clientX e) (DOMRect.left rect))
            (sub (clientY e) (DOMRect.top rect)).

(** [dx * dx + dy * dy] for [dx = x - lastPoint.x], [dy = y - lastPoint.y]. *)
Definition squared_distance (p lastPoint : Point2D) : number :=
  let dx := sub (x p) (x lastPoint) in
  let dy := sub (y p) (y lastPoint) in
  add (mul dx dx) (mul dy dy).

Definition handleMouseDown (rect : DOMRect.t) (e : MouseEvent)
    (st : LassoSelector) : LassoSelector :=
  mkLassoSelector true [pointer rect e].

(** [pathRef.current[pathRef.current.length - 1]] is [undefined] on an empty
    path, and reading [lastPoint.x] then throws. *)
Definition handleMouseMove (rect : DOMRect.t) (e : MouseEvent)
    (st : LassoSelector) : result LassoSelector :=
  if negb (isDrawing st) then Return st
  else
    let p := pointer rect e in
    match last (pathRef st) with
    | None => Raise TypeError
    | Some lastPoint =>
        if lt (squared_distance p lastPoint) sixteen then Return st
        else Return (mkLassoSelector (isDrawing st) (pathRef st ++ [p]))
    end.

(** [handleMouseUp] also returns the polygon handed to
    [onSelectionComplete], if any. *)
Definition handleMouseUp (st : LassoSelector)
    : LassoSelector * option (list Point2D) :=
  if negb (isDrawing st) then (st, None)
  else
    let st' := mkLassoSelector false (pathRef st) in
    if 3 <=? length (pathRef st) then (st', Some (pathRef st)) else (st', None).

(** The pointer leaving the canvas ends a gesture like releasing it. *)
Definition handleMouseLeave (st : LassoSelector)
    : LassoSelector * option (list Point2D) :=
  if isDrawing st then handleMouseUp st else (st, None).

(** A run of pointer-move events, stopping at the first one that throws. *)
Fixpoint mouseMoves (events : list (DOMRect.t * MouseEvent))
    (st : LassoSelector) : result LassoSelector :=
  match events with
  | [] => Return st
  | (rect, e) :: events' =>
      match handleMouseMove rect e st with
      | Return st' => mouseMoves events' st'
      | Raise err => Raise err
      end
  end.

(** ** Point colours *)

Module Color.
Record t : Type := mk { r : number; g : number; b : number }.
End Color.

(** The geometry of the loaded cloud: the arrays of its [position] attribute
    and of its [color] attribute, if it has one. *)
Record BufferGeometry : Type := mkBufferGeometry {
  position : loc;
  color : option loc
}.

Record PointCloudData : Type := mkPointCloudData {
  geometry : BufferGeometry;
  pointCount : nat;
  originalColors : loc
}.

(** The part of [loadPCD] that follows the loader: give the geometry a white
    colour attribute if it has none, then save a copy of the colours. *)
Definition white_step (colors : loc) (i : nat) (_ : unit) : M unit :=
  f32_set colors (i * 3) one;;
  f32_set colors (i * 3 + 1) one;;
  f32_set colors (i * 3 + 2) one.

Definition loadPCD_colors (positions : loc) (colorAttr : option loc)
    (count : nat) : M PointCloudData :=
  let* colorArray :=
    match colorAttr with
    | Some c => ret c
    | None =>
        let* colors := newFloat32Array (count * 3) in
        for_each (seq 0 count) (white_step colors) tt;;
        ret colors
    end in
  let* len := f32_length colorArray in
  let* original := newFloat32Array len in
  f32_set_from original colorArray;;
  ret (mkPointCloudData (mkBufferGeometry positions (Some colorArray)) count original).

Definition color_step (indices colors : loc) (c : Color.t) (i : nat) (_ : unit)
    : M unit :=
  let* selected := u8_get indices i in
  if (selected =? 0)%Z then ret tt
  else
    f32_set colors (i * 3) (Color.r c);;
    f32_set colors (i * 3 + 1) (Color.g c);;
    f32_set colors (i * 3 + 2) (Color.b c).

(** [setPointColors]; the [needsUpdate] flag it raises only asks the
    renderer to upload the colours again. *)
Definition setPointColors (pointCloud : option PointCloudData) (indices : loc)
    (c : Color.t) : M unit :=
  match pointCloud with
  | None => ret tt
  | Some pc =>
      match color (geometry pc) with
      | None => ret tt
      | Some colors =>
          f32_set_from colors (originalColors pc);;
          let* n := u8_length indices in
          for_each (seq 0 n) (color_step indices colors c) tt;;
          ret tt
      end
  end.

(** The selection colour of the viewer, [new THREE.Color(0.5, 1.0, 0.5)]. *)
Definition SELECTION_COLOR : Color.t :=
  Color.mk (dyadic 1 (-1)) one (dyadic 1 (-1)).

(** [resetColors]: the saved colours are copied back over the colour
    buffer. *)
Definition resetColors (pointCloud : option PointCloudData) : M unit :=
  match pointCloud with
  | None => ret tt
  | Some pc =>
      match color (geometry pc) with
      | None => ret tt
      | Some colors => f32_set_from colors (originalColors pc)
      end
  end.

(** ** The selection orchestrator *)

(** [for (...) { if (selectedIndices[i]) selectedCount++; }], the loop of
    [handleSelectionComplete] and of the selection worker. *)
Definition count_step (selectedIndices : loc) (i : nat) (selectedCount : nat)
    : M nat :=
  let* flag := u8_get selectedIndices i in
  ret (if (flag =? 0)%Z then selectedCount else S selectedCount).

Definition countSelected (selectedIndices : loc) : M nat :=
  let* n := u8_length selectedIndices in
  for_each (seq 0 n) (count_step selectedIndices) 0.

Module CanvasSize.
Record t : Type := mk { width : number; height : number }.
End CanvasSize.

(** [handleSelectionComplete] of the viewer.  The two readings of
    [performance.now()] are inputs; the result is the pair handed to
    [onSelectionComplete], if the call is made.  The log line is left out. *)
Definition handleSelectionComplete `{THREE} (pointCloud : option PointCloudData)
    (cameraRef : option Camera) (canvasSize : CanvasSize.t)
    (startTime endTime : number) (polygon : list Point2D)
    : M (option (number * nat)) :=
  match pointCloud, cameraRef with
  | Some pc, Some camera =>
      let positions := position (geometry pc) in
      let* screenPositions :=
        projectPointsToScreen positions camera
          (CanvasSize.width canvasSize) (CanvasSize.height canvasSize) in
      let* selectedIndices := batchPointsInPolygon screenPositions polygon in
      let* selectedCount := countSelected selectedIndices in
      setPointColors pointCloud selectedIndices SELECTION_COLOR;;
      let totalTime := sub endTime startTime in
      ret (Some (totalTime, selectedCount))
  | _, _ => ret None
  end.

(** * Vocabulary of the properties

    The functional summaries of the loops, the predicates used in the
    statements and the concrete inputs of the examples. *)

(** A coordinate pair made of numbers proper: neither is [NaN]. *)
Definition numeric (p : Point2D) : Prop :=
  is_nan (x p) = false /\ is_nan (y p) = false.

Definition running_min (m v : number) : number := if lt v m then v else m.
Definition running_max (m v : number) : number := if gt v m then v else m.

(** The directed edges visited by the ray-casting loop, as pairs (vertex,
    predecessor), starting from the predecessor [prev] of the first vertex. *)
Fixpoint adjacent (prev : Point2D) (l : list Point2D)
    : list (Point2D * Point2D) :=
  match l with
  | [] => []
  | v :: l' => (v, prev) :: adjacent v l'
  end.

Definition edges (polygon : list Point2D) : list (Point2D * Point2D) :=
  adjacent (vertex polygon (length polygon - 1)) polygon.

Definition edge_crosses (point : Point2D) (e : Point2D * Point2D) : bool :=
  crosses (x point) (y point) (x (fst e)) (y (fst e)) (x (snd e)) (y (snd e)).

Definition parity (cs : list bool) : bool := fold_right xorb false cs.

(** The contents of a buffer after the stores [ws], in order; a store past
    the end is dropped. *)
Definition writes {A} (ws : list (nat * A)) (init : list A) : list A :=
  fold_left (fun acc kv => <[fst kv := snd kv]> acc) ws init.

(** A vertex as the classifier keeps it: both coordinates stored in a
    [Float32Array]. *)
Definition round32 (p : Point2D) : Point2D :=
  mkPoint2D (fround (x p)) (fround (y p)).

Definition coordinate (s : list number) (k : nat) : number :=
  of_undefined (s !! k).

(** The flag stored for a point: the prefilter against [bounds], then the
    ray casting against the stored vertices. *)
Definition classify (bounds : Bounds) (stored : list Point2D)
    (px py : number) : Z :=
  if outside_bounds bounds px py then 0
  else if isPointInPolygon (mkPoint2D px py) stored then 1 else 0.

Definition batch_mask (s : list number) (polygon : list Point2D) : list Z :=
  let zeros := replicate (length s / 2) 0%Z in
  if length polygon <? 3 then zeros
  else
    writes
      (map (fun i => (i, classify (getPolygonBounds polygon)
                           (map round32 polygon)
                           (coordinate s (i * 2)) (coordinate s (i * 2 + 1))))
         (seq 0 (turns (length s) 2)))
      zeros.

(** Whether a vertex survives the store into the classifier's
    [Float32Array]s unchanged. *)
Definition single_precision (p : Point2D) : Prop := round32 p = p.

(** The flag of a point that passes the prefilter and the predicate. *)
Definition selected (polygon stored : list Point2D) (px py : number) : bool :=
  negb (outside_bounds (getPolygonBounds polygon) px py)
  && isPointInPolygon (mkPoint2D px py) stored.

(** The pixel coordinates computed for one point, before they are stored. *)
Definition project_point (e : nat -> number) (halfWidth halfHeight : number)
    (px py pz : number) : number * number :=
  let w := row e 3 7 11 15 px py pz in
  if strict_eq w zero then (neg_Infinity, neg_Infinity)
  else
    let invW := div one w in
    let ndcX := mul (row e 0 4 8 12 px py pz) invW in
    let ndcY := mul (row e 1 5 9 13 px py pz) invW in
    (mul (add ndcX one) halfWidth, mul (sub one ndcY) halfHeight).

Definition project_writes (e : nat -> number) (halfWidth halfHeight : number)
    (ps : list number) (i : nat) : list (nat * number) :=
  let sxy := project_point e halfWidth halfHeight
               (coordinate ps (i * 3)) (coordinate ps (i * 3 + 1))
               (coordinate ps (i * 3 + 2)) in
  [(i * 2, fround (fst sxy)); (i * 2 + 1, fround (snd sxy))].

Definition mvp `{THREE} (camera : Camera) : nat -> number :=
  elem (multiplyMatrices (projectionMatrix camera) (matrixWorldInverse camera)).

Definition screen_buffer `{THREE} (ps : list number) (camera : Camera)
    (width height : number) : list number :=
  writes
    (flat_map (project_writes (mvp camera) (div width two) (div height two) ps)
       (seq 0 (turns (length ps) 3)))
    (replicate (length ps * 2 / 3) zero).

(** A coordinate pair of finite numbers: neither infinite nor [NaN]. *)
Definition finite_point (p : Point2D) : Prop :=
  is_finite (x p) = true /\ is_finite (y p) = true.

(** The stores of [setPointColors] for point [i]. *)
Definition color_writes (mask : list Z) (c : Color.t) (i : nat)
    : list (nat * number) :=
  if (default 0 (mask !! i) =? 0)%Z then []
  else [(i * 3, fround (Color.r c)); (i * 3 + 1, fround (Color.g c));
        (i * 3 + 2, fround (Color.b c))].

(** The colour buffer after [setPointColors]: it is computed from the saved
    colours, the mask and the colour only. *)
Definition recolour (original : list number) (mask : list Z) (c : Color.t)
    : list number :=
  writes (flat_map (color_writes mask c) (seq 0 (length mask))) original.

Definition pt (a b : Z) : Point2D := mkPoint2D (of_Z a) (of_Z b).

(** The mask a call of the classifier leaves in the buffer it returns, and
    the contents of the buffer returned by the projector. *)
Definition returned_mask (r : result (loc * heap)) : option (list Z) :=
  match r with
  | Return (l, h) =>
      match h !! l with Some (Uint8Array m) => Some m | _ => None end
  | Raise _ => None
  end.

Definition returned_screen (r : result (loc * heap)) : option (list number) :=
  match r with
  | Return (l, h) =>
      match h !! l with Some (Float32Array m) => Some m | _ => None end
  | Raise _ => None
  end.

(** The square [[(0,0),(10,0),(10,10),(0,10)]] and the points [(5,5)],
    [(15,15)], [(-1,5)]. *)
Definition square : list Point2D := [pt 0 0; pt 10 0; pt 10 10; pt 0 10].
Definition samples : list number := map of_Z [5; 5; 15; 15; -1; 5]%Z.
Definition sample_heap : heap := {[1%positive := Float32Array samples]}.

(** A unit square whose right side lies at [x = 1 + 2^-30], which is not a
    single-precision value, and the point [(1, 0.5)]. *)
Definition wide_square : list Point2D :=
  let a := add one (dyadic 1 (-30)) in
  [mkPoint2D zero zero; mkPoint2D a zero; mkPoint2D a one; mkPoint2D zero one].
Definition wide_samples : list number := [one; dyadic 1 (-1)].
Definition wide_heap : heap := {[1%positive := Float32Array wide_samples]}.

(** A triangle whose leftmost vertex is [(2 + 2^-51, 7 - 2^-50)], next to
    the point [(2, 7)]. *)
Definition sliver : list Point2D :=
  [pt 193 30;
   mkPoint2D (dyadic (2 ^ 52 + 1) (-51)) (dyadic (7 * 2 ^ 50 - 1) (-50));
   pt 46 128].

(** A triangle with single-precision coordinates, two of its vertices far
    to the right at [x = 2^60], next to the point [(0.5, 2^-100)]. *)
Definition needle : list Point2D := [pt 1 0; pt (2 ^ 60) 1; pt (2 ^ 60) (-1)].
Definition needle_point : Point2D := mkPoint2D (dyadic 1 (-1)) (dyadic 1 (-100)).

(** A camera at the origin looking down the negative z axis: the clip
    coordinates of [(x, y, z, 1)] are [(x, y, -z - 2, -z)]. *)
Definition sample_camera : Camera :=
  mkCamera
    (mkMatrix4 (map of_Z [1; 0; 0; 0;  0; 1; 0; 0;  0; 0; -1; -1;  0; 0; -2; 0]%Z))
    (mkMatrix4 (map of_Z [1; 0; 0; 0;  0; 1; 0; 0;  0; 0; 1; 0;  0; 0; 0; 1]%Z)).

(** The points [(0, 0, -4)], [(2, 1, -4)] and, in the plane of the camera,
    [(1, 1, 0)]. *)
Definition sample_positions : list number :=
  map of_Z [0; 0; -4;  2; 1; -4;  1; 1; 0]%Z.
Definition position_heap : heap := {[1%positive := Float32Array sample_positions]}.

(** The contract of the classifier in the words of the specification: the
    mask flags exactly the points that are inside the bounding box and
    accepted by [isPointInPolygon] on the polygon as given, and the
    prefilter rejects no point that the predicate accepts. *)
Definition mask_agrees_with_predicate (s : list number)
    (polygon : list Point2D) (mask : list Z) : Prop :=
  forall i, i < length s / 2 ->
    mask !! i = Some 1%Z <->
    outside_bounds (getPolygonBounds polygon)
      (coordinate s (i * 2)) (coordinate s (i * 2 + 1)) = false
    /\ isPointInPolygon
         (mkPoint2D (coordinate s (i * 2)) (coordinate s (i * 2 + 1))) polygon
       = true.

Definition prefilter_conservative (polygon : list Point2D) : Prop :=
  forall px py,
    isPointInPolygon (mkPoint2D px py) polygon = true ->
    outside_bounds (getPolygonBounds polygon) px py = false.

(** A gesture that starts at [(100, 100)] and moves to [(101, 102)],
    [(103, 100)] and [(100, 97)]: every move stays within 4 pixels of the
    start. *)
Definition canvas_rect : DOMRect.t := DOMRect.mk (of_Z 0) (of_Z 0).
Definition dense_moves : list (DOMRect.t * MouseEvent) :=
  [(canvas_rect, mkMouseEvent (of_Z 101) (of_Z 102));
   (canvas_rect, mkMouseEvent (of_Z 103) (of_Z 100));
   (canvas_rect, mkMouseEvent (of_Z 100) (of_Z 97))].

(** Two points with saved colours white and black; the colour buffer still
    shows an earlier selection of both points. *)
Definition sample_cloud : PointCloudData :=
  mkPointCloudData (mkBufferGeometry 1%positive (Some 2%positive)) 2 3%positive.
Definition saved_colors : list number := map of_Z [1; 1; 1; 0; 0; 0]%Z.
Definition color_heap : heap :=
  <[4%positive := Uint8Array [0; 1]%Z]>
    (<[3%positive := Float32Array saved_colors]>
       (<[2%positive := Float32Array
            (map (fun _ => dyadic 1 (-1)) saved_colors)]>
          position_heap)).

(** All vertices on the same side of the horizontal line through a point:
    [yi > y] has the same value [side] for each of them. *)
Definition same_side (py : number) (side : bool) (polygon : list Point2D)
    : Prop :=
  Forall (fun v => gt (y v) py = side) polygon.

(** The bounds test of the classifier applied to a point record. *)
Definition rejected_by (b : Bounds) (p : Point2D) : bool :=
  outside_bounds b (x p) (y p).

(** Consecutive vertices of a captured path are never closer than the
    sampling threshold: [dx * dx + dy * dy < 16] is false for each vertex
    against its predecessor. *)
Fixpoint well_spaced (path : list Point2D) : Prop :=
  match path with
  | a :: (b :: _) as rest =>
      lt (squared_distance b a) sixteen = false /\ well_spaced rest
  | _ => True
  end.

(** The pointer positions of a run of move events. *)
Definition positions_of (moves : list (DOMRect.t * MouseEvent)) : list Point2D :=
  map (fun m => pointer (fst m) (snd m)) moves.

(** The number of flags of a mask that are set. *)
Definition count_flags (mask : list Z) : nat :=
  length (filter (fun v => v <> 0%Z) mask).

(** The state of a loaded cloud on the heap: the colour buffer and the saved
    colours are distinct buffers of the same length. *)
Definition cloud_loaded (h : heap) (pc : PointCloudData) (colors : loc)
    (current original : list number) : Prop :=
  color (geometry pc) = Some colors
  /\ colors <> originalColors pc
  /\ h !! colors = Some (Float32Array current)
  /\ h !! originalColors pc = Some (Float32Array original)
  /\ length current = length original.

(** The stores of [loadPCD] that paint point [i] white. *)
Definition white_writes (i : nat) : list (nat * number) :=
  [(i * 3, fround one); (i * 3 + 1, fround one); (i * 3 + 2, fround one)].

(** The mask of a lasso selection: the classifier run on the projection of
    the cloud. *)
Definition selection_mask `{THREE} (ps : list number) (camera : Camera)
    (canvasSize : CanvasSize.t) (polygon : list Point2D) : list Z :=
  batch_mask
    (screen_buffer ps camera (CanvasSize.width canvasSize)
       (CanvasSize.height canvasSize))
    polygon.

(** A buffer with a trailing unpaired coordinate, and a position buffer with
    two coordinates left over. *)
Definition odd_heap : heap :=
  {[1%positive := Float32Array (samples ++ [of_Z 9])]}.
Definition ragged_positions : list number := map of_Z [0; 0; -4;  2; 1]%Z.
Definition ragged_heap : heap := {[1%positive := Float32Array ragged_positions]}.

(** A cloud whose first point is invalid: its x coordinate is [NaN]. *)
Definition invalid_positions : list number :=
  [NaN; of_Z 0; of_Z (-4); of_Z 2; of_Z 1; of_Z (-4)].
Definition invalid_heap : heap := {[1%positive := Float32Array invalid_positions]}.

(** A polygon with a [NaN] vertex. *)
Definition broken_polygon : list Point2D := [mkPoint2D NaN (of_Z 3); pt 1 2].

(** The three sample points loaded with the colours white, black, white;
    the colour buffer shows an earlier selection of every point.  The lasso
    is a square of 20 pixels around the centre of an 800 x 600 canvas. *)
Definition selection_cloud : PointCloudData :=
  mkPointCloudData (mkBufferGeometry 1%positive (Some 2%positive)) 3 3%positive.
Definition selection_saved : list number :=
  map of_Z [1; 1; 1;  0; 0; 0;  1; 1; 1]%Z.
Definition selection_shown : list number :=
  map (fun _ => dyadic 1 (-1)) selection_saved.
Definition selection_heap : heap :=
  <[3%positive := Float32Array selection_saved]>
    (<[2%positive := Float32Array selection_shown]> position_heap).
Definition centre_lasso : list Point2D :=
  [pt 390 290; pt 410 290; pt 410 310; pt 390 310].
Definition sample_canvas : CanvasSize.t := CanvasSize.mk (of_Z 800) (of_Z 600).

(** * Properties *)

(** ** The order on numbers *)

Section NumberOrder.

Local Ltac compare_cases :=
  repeat match goal with
    | H : context [Pos.compare_cont Eq ?a ?b] |- _ =>
        change (Pos.compare_cont Eq a b) with (Pos.compare a b) in H
    | |- context [Pos.compare_cont Eq ?a ?b] =>
        change (Pos.compare_cont Eq a b) with (Pos.compare a b)
    end;
  repeat match goal with
    | H : context [Z.compare ?a ?b] |- _ => destruct (Z.compare_spec a b)
    | H : context [Pos.compare ?a ?b] |- _ => destruct (Pos.compare_spec a b)
    | |- context [Z.compare ?a ?b] => destruct (Z.compare_spec a b)
    | |- context [Pos.compare ?a ?b] => destruct (Pos.compare_spec a b)
    end;
  simpl in *; try congruence; try lia.

Local Ltac by_cases :=
  unfold lt, gt, le, strict_eq, SFltb, SFleb, SFeqb, is_nan in *;
  repeat match goal with
    | a : number |- _ => destruct a as [[]|[]| |[] ? ?]
    end;
  simpl in *; try congruence; compare_cases.

Lemma le_refl (a : number) : is_nan a = false -> le a a = true.
Proof. by_cases. Qed.

Lemma not_lt_le (a b : number) :
  is_nan a = false -> is_nan b = false -> lt a b = false -> le b a = true.
Proof. by_cases. Qed.

Lemma lt_not_lt (a b : number) : lt a b = true -> lt b a = false.
Proof. by_cases. Qed.

Lemma lt_le_trans (a b c : number) :
  lt a b = true -> le b c = true -> le a c = true.
Proof. by_cases. Qed.

Lemma le_lt_trans (a b c : number) :
  le a b = true -> lt b c = true -> le a c = true.
Proof. by_cases. Qed.

Lemma not_lt_iff_le (a b : number) :
  is_nan a = false -> is_nan b = false ->
  lt a b = false <-> le b a = true.
Proof. by_cases. Qed.

Lemma lt_neg_Infinity_finite (a : number) :
  is_finite a = true -> lt neg_Infinity a = true.
Proof. by destruct a. Qed.

Lemma lt_below_running (u m v : number) :
  lt u m = true -> lt v m = false -> lt v u = false.
Proof. by_cases. Qed.

Lemma lt_above_running (u m v : number) :
  lt m u = true -> lt m v = false -> lt u v = false.
Proof. by_cases. Qed.

End NumberOrder.

(** ** The bounding box *)

Lemma getPolygonBounds_fold (polygon : list Point2D) (b : Bounds) :
  fold_left bounds_step polygon b =
  mkBounds (fold_left running_min (map x polygon) (minX b))
           (fold_left running_max (map x polygon) (maxX b))
           (fold_left running_min (map y polygon) (minY b))
           (fold_left running_max (map y polygon) (maxY b)).
Proof.
  revert b. induction polygon as [|p polygon IH]; intros b; simpl.
  - by destruct b.
  - by rewrite IH.
Qed.

Lemma running_min_spec (vs : list number) (m0 : number) :
  Forall (fun v => is_nan v = false) vs -> is_nan m0 = false ->
  let m := fold_left running_min vs m0 in
  is_nan m = false /\ le m m0 = true /\
  (forall v, v ∈ vs -> le m v = true) /\ (m = m0 \/ m ∈ vs).
Proof.
  induction vs as [|v vs IH] using rev_ind; intros Hvs Hm0; simpl.
  - split; [done|]. split; [by apply le_refl|]. split; [|by left].
    intros v Hv. by apply elem_of_nil in Hv.
  - apply Forall_app in Hvs as [Hvs Hv]. apply Forall_inv in Hv.
    destruct (IH Hvs Hm0) as (Hnan & Hle & Hall & Hin).
    rewrite fold_left_app. simpl.
    set (m := fold_left running_min vs m0) in *. unfold running_min.
    destruct (lt v m) eqn:Hlt.
    + split; [done|]. split; [by eapply lt_le_trans|]. split.
      * intros u Hu. apply elem_of_app in Hu as [Hu|Hu].
        -- eapply lt_le_trans; [done|]. by apply Hall.
        -- apply list_elem_of_singleton in Hu as ->. by apply le_refl.
      * right. apply elem_of_app. right. by apply list_elem_of_singleton.
    + split; [done|]. split; [done|]. split.
      * intros u Hu. apply elem_of_app in Hu as [Hu|Hu]; [by apply Hall|].
        apply list_elem_of_singleton in Hu as ->. by apply not_lt_le.
      * destruct Hin as [Hin|Hin]; [by left|].
        right. apply elem_of_app. by left.
Qed.

Lemma running_max_spec (vs : list number) (m0 : number) :
  Forall (fun v => is_nan v = false) vs -> is_nan m0 = false ->
  let m := fold_left running_max vs m0 in
  is_nan m = false /\ le m0 m = true /\
  (forall v, v ∈ vs -> le v m = true) /\ (m = m0 \/ m ∈ vs).
Proof.
  induction vs as [|v vs IH] using rev_ind; intros Hvs Hm0; simpl.
  - split; [done|]. split; [by apply le_refl|]. split; [|by left].
    intros v Hv. by apply elem_of_nil in Hv.
  - apply Forall_app in Hvs as [Hvs Hv]. apply Forall_inv in Hv.
    destruct (IH Hvs Hm0) as (Hnan & Hle & Hall & Hin).
    rewrite fold_left_app. simpl.
    set (m := fold_left running_max vs m0) in *. unfold running_max, gt.
    destruct (lt m v) eqn:Hlt.
    + split; [done|]. split; [by eapply le_lt_trans|]. split.
      * intros u Hu. apply elem_of_app in Hu as [Hu|Hu].
        -- eapply le_lt_trans; [|done]. by apply Hall.
        -- apply list_elem_of_singleton in Hu as ->. by apply le_refl.
      * right. apply elem_of_app. right. by apply list_elem_of_singleton.
    + split; [done|]. split; [done|]. split.
      * intros u Hu. apply elem_of_app in Hu as [Hu|Hu]; [by apply Hall|].
        apply list_elem_of_singleton in Hu as ->. by apply not_lt_le.
      * destruct Hin as [Hin|Hin]; [by left|].
        right. apply elem_of_app. by left.
Qed.

Lemma le_Infinity_inv (v : number) : le Infinity v = true -> v = Infinity.
Proof. by destruct v as [[]|[]| |[] ? ?]. Qed.

Lemma le_neg_Infinity_inv (v : number) : le v neg_Infinity = true -> v = neg_Infinity.
Proof. by destruct v as [[]|[]| |[] ? ?]. Qed.

Lemma empty_bounds_reject (px py : number) :
  is_nan px = false \/ is_nan py = false ->
  outside_bounds empty_bounds px py = true.
Proof.
  unfold outside_bounds, empty_bounds; simpl.
  destruct px as [[]|[]| |[] ? ?], py as [[]|[]| |[] ? ?]; simpl;
    intros [?|?]; done.
Qed.

(** C5: on a polygon whose coordinates are numbers (none is [NaN]),
    [getPolygonBounds] returns the tightest axis-aligned box around the
    vertices: every vertex lies between [minX] and [maxX] and between [minY]
    and [maxY], and on a non-empty polygon each of the four bounds is the
    coordinate of some vertex.  For the empty polygon the bounds are
    [{+inf, -inf, +inf, -inf}], and the bounds test of the classifier rejects
    every point that has a numeric coordinate. *)
Theorem getPolygonBounds_tightest (polygon : list Point2D) :
  Forall numeric polygon ->
  let b := getPolygonBounds polygon in
  (forall v, v ∈ polygon ->
     le (minX b) (x v) = true /\ le (x v) (maxX b) = true /\
     le (minY b) (y v) = true /\ le (y v) (maxY b) = true)
  /\ (polygon <> [] ->
      (exists v, v ∈ polygon /\ minX b = x v) /\
      (exists v, v ∈ polygon /\ maxX b = x v) /\
      (exists v, v ∈ polygon /\ minY b = y v) /\
      (exists v, v ∈ polygon /\ maxY b = y v))
  /\ getPolygonBounds [] = mkBounds Infinity neg_Infinity Infinity neg_Infinity
  /\ (forall px py, is_nan px = false \/ is_nan py = false ->
        outside_bounds (getPolygonBounds []) px py = true).
Proof.
  intros Hnum b.
  assert (Hxs : Forall (fun v => is_nan v = false) (map x polygon)).
  { apply Forall_map. eapply Forall_impl; [done|]. by intros p [? ?]. }
  assert (Hys : Forall (fun v => is_nan v = false) (map y polygon)).
  { apply Forall_map. eapply Forall_impl; [done|]. by intros p [? ?]. }
  destruct (running_min_spec (map x polygon) Infinity Hxs eq_refl)
    as (_ & _ & Hminx & Hminx_in).
  destruct (running_max_spec (map x polygon) neg_Infinity Hxs eq_refl)
    as (_ & _ & Hmaxx & Hmaxx_in).
  destruct (running_min_spec (map y polygon) Infinity Hys eq_refl)
    as (_ & _ & Hminy & Hminy_in).
  destruct (running_max_spec (map y polygon) neg_Infinity Hys eq_refl)
    as (_ & _ & Hmaxy & Hmaxy_in).
  subst b. unfold getPolygonBounds. rewrite getPolygonBounds_fold. simpl.
  split; [|split; [|split]].
  - intros v Hv.
    assert (x v ∈ map x polygon) by (by apply list_elem_of_fmap_2).
    assert (y v ∈ map y polygon) by (by apply list_elem_of_fmap_2).
    auto.
  - intros Hne. destruct polygon as [|p0 polygon]; [done|].
    assert (Hx0 : x p0 ∈ map x (p0 :: polygon)) by (simpl; left).
    assert (Hy0 : y p0 ∈ map y (p0 :: polygon)) by (simpl; left).
    assert (Hattained : forall (f : Point2D -> number) (m : number),
               m ∈ map f (p0 :: polygon) ->
               exists v, v ∈ p0 :: polygon /\ m = f v).
    { intros f m Hm. apply list_elem_of_fmap in Hm as (v & -> & Hv). eauto. }
    repeat split; apply Hattained.
    + destruct Hminx_in as [Heq|Hin]; [|done].
      rewrite Heq. specialize (Hminx _ Hx0). rewrite Heq in Hminx.
      apply le_Infinity_inv in Hminx. by rewrite <- Hminx.
    + destruct Hmaxx_in as [Heq|Hin]; [|done].
      rewrite Heq. specialize (Hmaxx _ Hx0). rewrite Heq in Hmaxx.
      apply le_neg_Infinity_inv in Hmaxx. by rewrite <- Hmaxx.
    + destruct Hminy_in as [Heq|Hin]; [|done].
      rewrite Heq. specialize (Hminy _ Hy0). rewrite Heq in Hminy.
      apply le_Infinity_inv in Hminy. by rewrite <- Hminy.
    + destruct Hmaxy_in as [Heq|Hin]; [|done].
      rewrite Heq. specialize (Hmaxy _ Hy0). rewrite Heq in Hmaxy.
      apply le_neg_Infinity_inv in Hmaxy. by rewrite <- Hmaxy.
  - done.
  - intros px py Hp. by apply empty_bounds_reject.
Qed.

(** ** The geometric predicate *)

Lemma parity_app (cs ds : list bool) :
  parity (cs ++ ds) = xorb (parity cs) (parity ds).
Proof.
  induction cs as [|c cs IH]; simpl.
  - by destruct (parity ds).
  - rewrite IH. by rewrite xorb_assoc.
Qed.

Lemma parity_Permutation (cs ds : list bool) :
  Permutation cs ds -> parity cs = parity ds.
Proof.
  induction 1 as [|c cs ds _ IH|c d cs|cs ds es _ IH1 _ IH2]; simpl.
  - done.
  - by rewrite IH.
  - rewrite <- !xorb_assoc. by rewrite (xorb_comm d c).
  - by rewrite IH1.
Qed.

Lemma vertex_app_length (pre l : list Point2D) (v : Point2D) :
  vertex (pre ++ v :: l) (length pre) = v.
Proof. unfold vertex. by rewrite app_nth2, Nat.sub_diag by lia. Qed.

(** The loop from index [length pre] on, over the rest [l] of the polygon. *)
Lemma ray_loop (point : Point2D) (l pre : list Point2D) (inside : bool) (j : nat) :
  fst (fold_left (ray_step (pre ++ l) point) (seq (length pre) (length l))
         (inside, j))
  = xorb inside
      (parity (map (edge_crosses point) (adjacent (vertex (pre ++ l) j) l))).
Proof.
  revert pre inside j. induction l as [|v l IH]; intros pre inside j; simpl.
  - by rewrite xorb_false_r.
  - specialize (IH (pre ++ [v])).
    rewrite <- app_assoc, length_app in IH. simpl in IH.
    rewrite Nat.add_1_r in IH. rewrite IH.
    rewrite !vertex_app_length. unfold edge_crosses at 2. simpl.
    destruct (crosses _ _ _ _ _ _), inside,
      (parity (map (edge_crosses point) (adjacent v l))); done.
Qed.

Lemma isPointInPolygon_parity (point : Point2D) (polygon : list Point2D) :
  3 <= length polygon ->
  isPointInPolygon point polygon
  = parity (map (edge_crosses point) (edges polygon)).
Proof.
  intros Hn. unfold isPointInPolygon, edges.
  destruct (Nat.ltb_spec (length polygon) 3); [lia|].
  by rewrite (ray_loop point polygon [] false).
Qed.

Lemma last_app_gen {A} (l1 l2 : list A) (d : A) :
  List.last (l1 ++ l2) d = List.last l2 (List.last l1 d).
Proof.
  revert d. induction l2 as [|a l2 IH] using rev_ind; intros d.
  - by rewrite app_nil_r.
  - by rewrite app_assoc, !last_last.
Qed.

Lemma last_nonempty {A} (l : list A) (d d' : A) :
  l <> [] -> List.last l d = List.last l d'.
Proof.
  destruct l as [|a l] using rev_ind; [done|]. intros _. by rewrite !last_last.
Qed.

Lemma vertex_last (polygon : list Point2D) :
  vertex polygon (length polygon - 1)
  = List.last polygon (mkPoint2D NaN NaN).
Proof.
  unfold vertex. destruct polygon as [|v polygon] using rev_ind; [done|].
  rewrite length_app, last_last. simpl.
  rewrite app_nth2 by lia. by replace (_ - _) with 0 by lia.
Qed.

Lemma adjacent_app (prev : Point2D) (l1 l2 : list Point2D) :
  adjacent prev (l1 ++ l2)
  = adjacent prev l1 ++ adjacent (List.last l1 prev) l2.
Proof.
  revert prev. induction l1 as [|v l1 IH]; intros prev; [done|].
  cbn [adjacent app]. rewrite IH. do 3 f_equal.
  destruct l1 as [|u l1]; [done|].
  change (List.last (v :: u :: l1) prev) with (List.last (u :: l1) prev).
  by apply last_nonempty.
Qed.

Lemma edges_rotate (l1 l2 : list Point2D) :
  Permutation (edges (l2 ++ l1)) (edges (l1 ++ l2)).
Proof.
  destruct l1 as [|a l1]; [by rewrite app_nil_r|].
  destruct l2 as [|c l2]; [by rewrite app_nil_r|].
  unfold edges. rewrite !vertex_last, !adjacent_app, !last_app_gen.
  set (d := mkPoint2D NaN NaN).
  assert (H1 : forall e, List.last (a :: l1) e = List.last (a :: l1) d)
    by (intros e; by apply last_nonempty).
  assert (H2 : forall e, List.last (c :: l2) e = List.last (c :: l2) d)
    by (intros e; by apply last_nonempty).
  remember (List.last (a :: l1) d) as la eqn:Hla.
  remember (List.last (c :: l2) d) as lc eqn:Hlc.
  rewrite ?H1, ?H2.
  apply Permutation_app_comm.
Qed.

Lemma isPointInPolygon_app_comm (point : Point2D) (l1 l2 : list Point2D) :
  isPointInPolygon point (l2 ++ l1) = isPointInPolygon point (l1 ++ l2).
Proof.
  destruct (Nat.lt_ge_cases (length (l1 ++ l2)) 3) as [Hlt|Hge].
  - unfold isPointInPolygon.
    replace (length (l2 ++ l1)) with (length (l1 ++ l2))
      by (rewrite !length_app; lia).
    by destruct (Nat.ltb_spec (length (l1 ++ l2)) 3); [|lia].
  - rewrite !isPointInPolygon_parity by (rewrite !length_app in *; lia).
    apply parity_Permutation, Permutation_map, edges_rotate.
Qed.

(** C10: [isPointInPolygon] gives the same verdict on a polygon and on any
    cyclic rotation of its vertex list, for every point, every polygon and
    every amount of rotation: the loop visits the same directed edges. *)
Theorem isPointInPolygon_rotate (point : Point2D) (polygon : list Point2D)
    (k : nat) :
  isPointInPolygon point (rotate k polygon) = isPointInPolygon point polygon.
Proof.
  unfold rotate.
  rewrite isPointInPolygon_app_comm. by rewrite take_drop.
Qed.

(** ** Buffers as the result of a sequence of stores *)

Lemma writes_app {A} (ws1 ws2 : list (nat * A)) (init : list A) :
  writes (ws1 ++ ws2) init = writes ws2 (writes ws1 init).
Proof. apply fold_left_app. Qed.

Lemma writes_length {A} (ws : list (nat * A)) (init : list A) :
  length (writes ws init) = length init.
Proof.
  revert init. induction ws as [|[k v] ws IH]; intros init; [done|].
  change (writes ((k, v) :: ws) init) with (writes ws (<[k := v]> init)).
  by rewrite IH, length_insert.
Qed.

Lemma writes_lookup {A} (ws : list (nat * A)) (init : list A) (k : nat) (v : A) :
  k < length init -> (k, v) ∈ ws ->
  (forall v', (k, v') ∈ ws -> v' = v) ->
  writes ws init !! k = Some v.
Proof.
  induction ws as [|[k' v'] ws IH] using rev_ind; intros Hk Hin Hfun.
  - by apply elem_of_nil in Hin.
  - rewrite writes_app. simpl.
    destruct (decide (k' = k)) as [->|Hne].
    + rewrite (Hfun v') by (apply elem_of_app; right; by left).
      apply list_lookup_insert_eq. by rewrite writes_length.
    + rewrite list_lookup_insert_ne by done.
      apply IH; [done| |].
      * apply elem_of_app in Hin as [Hin|Hin]; [done|].
        apply list_elem_of_singleton in Hin. congruence.
      * intros u Hu. apply Hfun. apply elem_of_app. by left.
Qed.

Lemma writes_lookup_other {A} (ws : list (nat * A)) (init : list A) (k : nat) :
  (forall v, (k, v) ∉ ws) -> writes ws init !! k = init !! k.
Proof.
  induction ws as [|[k' v'] ws IH] using rev_ind; intros Hnot; [done|].
  rewrite writes_app. simpl.
  destruct (decide (k' = k)) as [->|Hne].
  - exfalso. apply (Hnot v'). apply elem_of_app. right. by left.
  - rewrite list_lookup_insert_ne by done. apply IH.
    intros v Hv. apply (Hnot v). apply elem_of_app. by left.
Qed.

(** Storing [f i] at every index [i] below [n] of an [n]-element buffer. *)
Lemma writes_seq {A} (f : nat -> A) (init : list A) :
  writes (map (fun i => (i, f i)) (seq 0 (length init))) init
  = map f (seq 0 (length init)).
Proof.
  apply list_eq. intros k.
  destruct (decide (k < length init)) as [Hk|Hk].
  - rewrite (writes_lookup _ _ k (f k)); [|done| |].
    + rewrite list_lookup_fmap, lookup_seq_lt by done. done.
    + apply (list_elem_of_fmap_2 (fun i => (i, f i))).
      apply elem_of_seq. lia.
    + intros v' Hv'. apply list_elem_of_fmap in Hv' as (i & Heq & _).
      by inversion Heq.
  - rewrite !lookup_ge_None_2; [done| |].
    + rewrite length_map, length_seq. lia.
    + rewrite writes_length. lia.
Qed.

(** ** Running heap computations *)

Lemma bind_Return {A B} (m : M A) (k : A -> M B) (h h' : heap) (a : A) :
  m h = Return (a, h') -> bind m k h = k a h'.
Proof. unfold bind. by intros ->. Qed.

(** The loop rule: an invariant indexed by the list of indices already
    visited. *)
Lemma for_each_inv {S} (body : nat -> S -> M S)
    (I : list nat -> S -> heap -> Prop) :
  (forall done i s h, I done s h ->
     exists s' h', body i s h = Return (s', h') /\ I (done ++ [i]) s' h') ->
  forall idx done s h, I done s h ->
    exists s' h', for_each idx body s h = Return (s', h') /\ I (done ++ idx) s' h'.
Proof.
  intros Hstep idx. induction idx as [|i idx IH]; intros done s h HI; simpl.
  - exists s, h. by rewrite app_nil_r.
  - destruct (Hstep done i s h HI) as (s1 & h1 & Hbody & HI1).
    destruct (IH (done ++ [i]) s1 h1 HI1) as (s2 & h2 & Hrest & HI2).
    exists s2, h2. rewrite (bind_Return _ _ _ _ _ Hbody).
    by rewrite <- app_assoc in HI2.
Qed.

(** A loop whose body only reads the heap. *)
Lemma for_each_pure {S} (body : nat -> S -> M S) (f : S -> nat -> S) (h : heap) :
  (forall i s, body i s h = Return (f s i, h)) ->
  forall idx s, for_each idx body s h = Return (fold_left f idx s, h).
Proof.
  intros Hstep idx. induction idx as [|i idx IH]; intros s; simpl; [done|].
  by rewrite (bind_Return _ _ _ _ _ (Hstep i s)).
Qed.

Lemma fresh_not_allocated (h : heap) : h !! fresh (dom h) = None.
Proof. apply not_elem_of_dom, is_fresh. Qed.

Lemma allocated_not_fresh (h : heap) (l : loc) (b : typed_array) :
  h !! l = Some b -> l <> fresh (dom h).
Proof. intros Hl ->. by rewrite fresh_not_allocated in Hl. Qed.

Section TypedArrayAccess.

Context (h : heap) (a : loc).

Lemma f32_length_run (v : list number) :
  h !! a = Some (Float32Array v) -> f32_length a h = Return (length v, h).
Proof. unfold f32_length. by intros ->. Qed.

Lemma f32_get_run (v : list number) (i : nat) :
  h !! a = Some (Float32Array v) ->
  f32_get a i h = Return (of_undefined (v !! i), h).
Proof. unfold f32_get. by intros ->. Qed.

Lemma f32_set_run (v : list number) (i : nat) (n : number) :
  h !! a = Some (Float32Array v) ->
  f32_set a i n h = Return (tt, <[a := Float32Array (<[i := fround n]> v)]> h).
Proof. unfold f32_set. by intros ->. Qed.

Lemma u8_length_run (v : list Z) :
  h !! a = Some (Uint8Array v) -> u8_length a h = Return (length v, h).
Proof. unfold u8_length. by intros ->. Qed.

Lemma u8_get_run (v : list Z) (i : nat) :
  h !! a = Some (Uint8Array v) ->
  u8_get a i h = Return (default 0%Z (v !! i), h).
Proof. unfold u8_get. by intros ->. Qed.

Lemma u8_set_run (v : list Z) (i : nat) (n : Z) :
  h !! a = Some (Uint8Array v) ->
  u8_set a i n h = Return (tt, <[a := Uint8Array (<[i := (n mod 256)%Z]> v)]> h).
Proof. unfold u8_set. by intros ->. Qed.

End TypedArrayAccess.

(** ** The batch classifier *)

Lemma vertex_map_x (stored : list Point2D) (k : nat) :
  of_undefined (map x stored !! k) = x (vertex stored k).
Proof.
  unfold vertex. rewrite list_lookup_fmap.
  destruct (stored !! k) as [p|] eqn:Hk; simpl.
  - by rewrite (nth_lookup_Some _ _ _ _ Hk).
  - apply lookup_ge_None in Hk. by rewrite nth_overflow.
Qed.

Lemma vertex_map_y (stored : list Point2D) (k : nat) :
  of_undefined (map y stored !! k) = y (vertex stored k).
Proof.
  unfold vertex. rewrite list_lookup_fmap.
  destruct (stored !! k) as [p|] eqn:Hk; simpl.
  - by rewrite (nth_lookup_Some _ _ _ _ Hk).
  - apply lookup_ge_None in Hk. by rewrite nth_overflow.
Qed.

Lemma batch_ray_run (h : heap) (polyX polyY : loc) (stored : list Point2D)
    (px py : number) :
  h !! polyX = Some (Float32Array (map x stored)) ->
  h !! polyY = Some (Float32Array (map y stored)) ->
  3 <= length stored ->
  for_each (seq 0 (length stored)) (batch_ray_step polyX polyY px py)
    (false, length stored - 1) h
  = Return ((isPointInPolygon (mkPoint2D px py) stored, length stored - 1), h).
Proof.
  intros HX HY Hn.
  rewrite (for_each_pure _ (fun st j => ray_step stored (mkPoint2D px py) st j)).
  - unfold isPointInPolygon.
    destruct (Nat.ltb_spec (length stored) 3); [lia|].
    f_equal. f_equal.
    set (r := fold_left _ _ _).
    assert (Hsnd : forall idx st,
               snd (fold_left (ray_step stored (mkPoint2D px py)) (idx ++ [length stored - 1]) st)
               = length stored - 1).
    { intros idx st. rewrite fold_left_app. simpl.
      by destruct (fold_left _ idx st). }
    destruct r as [b k] eqn:Hr. simpl. f_equal.
    replace k with (snd r) by (by rewrite Hr).
    subst r. replace (length stored) with (S (length stored - 1)) at 1 by lia.
    rewrite seq_S. apply Hsnd.
  - intros j [inside k]. unfold batch_ray_step.
    rewrite (bind_Return _ _ _ _ _ (f32_get_run h polyX _ j HX)).
    rewrite (bind_Return _ _ _ _ _ (f32_get_run h polyY _ j HY)).
    rewrite (bind_Return _ _ _ _ _ (f32_get_run h polyX _ k HX)).
    rewrite (bind_Return _ _ _ _ _ (f32_get_run h polyY _ k HY)).
    by rewrite !vertex_map_x, !vertex_map_y.
Qed.

Lemma batch_copy_run (polygon : list Point2D) (polyX polyY : loc) (h : heap)
    (xs ys : list number) (idx : list nat) :
  polyX <> polyY ->
  h !! polyX = Some (Float32Array xs) ->
  h !! polyY = Some (Float32Array ys) ->
  exists h',
    for_each idx (batch_copy_step polygon polyX polyY) tt h = Return (tt, h')
    /\ h' !! polyX = Some (Float32Array
         (writes (map (fun i => (i, fround (x (vertex polygon i)))) idx) xs))
    /\ h' !! polyY = Some (Float32Array
         (writes (map (fun i => (i, fround (y (vertex polygon i)))) idx) ys))
    /\ forall l, l <> polyX -> l <> polyY -> h' !! l = h !! l.
Proof.
  intros Hne HX HY.
  pose (I := fun (done : list nat) (_ : unit) (h' : heap) =>
    h' !! polyX = Some (Float32Array
      (writes (map (fun i => (i, fround (x (vertex polygon i)))) done) xs))
    /\ h' !! polyY = Some (Float32Array
      (writes (map (fun i => (i, fround (y (vertex polygon i)))) done) ys))
    /\ forall l, l <> polyX -> l <> polyY -> h' !! l = h !! l).
  destruct (for_each_inv (batch_copy_step polygon polyX polyY) I) with
    (idx := idx) (done := @nil nat) (s := tt) (h := h)
    as ([] & h' & Hrun & HI).
  - intros done i [] h1 (HX1 & HY1 & Hframe). unfold batch_copy_step.
    rewrite (bind_Return _ _ _ _ _ (f32_set_run h1 polyX _ i _ HX1)).
    set (h2 := <[polyX := _]> h1).
    assert (HY2 : h2 !! polyY = Some (Float32Array
      (writes (map (fun i => (i, fround (y (vertex polygon i)))) done) ys)))
      by (subst h2; by rewrite lookup_insert_ne).
    rewrite (f32_set_run h2 polyY _ i _ HY2).
    eexists tt, _. split; [done|]. unfold I.
    rewrite !map_app, !writes_app. simpl. split; [|split].
    + rewrite lookup_insert_ne by done. subst h2. by rewrite lookup_insert_eq.
    + by rewrite lookup_insert_eq.
    + intros l HlX HlY. subst h2. rewrite !lookup_insert_ne by done.
      by apply Hframe.
  - by unfold I.
  - by exists h'.
Qed.

Lemma batch_point_run (h : heap) (screenPositions results polyX polyY : loc)
    (s : list number) (acc : list Z) (bounds : Bounds) (stored : list Point2D)
    (idx : list nat) :
  results <> screenPositions -> results <> polyX -> results <> polyY ->
  h !! screenPositions = Some (Float32Array s) ->
  h !! polyX = Some (Float32Array (map x stored)) ->
  h !! polyY = Some (Float32Array (map y stored)) ->
  h !! results = Some (Uint8Array acc) ->
  3 <= length stored ->
  exists h',
    for_each idx
      (batch_point_step screenPositions results polyX polyY bounds (length stored))
      tt h = Return (tt, h')
    /\ h' !! results = Some (Uint8Array
         (writes (map (fun i => (i, classify bounds stored
                                      (coordinate s (i * 2))
                                      (coordinate s (i * 2 + 1)))) idx) acc))
    /\ forall l, l <> results -> h' !! l = h !! l.
Proof.
  intros Hrs HrX HrY Hs HX HY Hr Hn.
  pose (I := fun (done : list nat) (_ : unit) (h' : heap) =>
    h' !! results = Some (Uint8Array
      (writes (map (fun i => (i, classify bounds stored
                                   (coordinate s (i * 2))
                                   (coordinate s (i * 2 + 1)))) done) acc))
    /\ forall l, l <> results -> h' !! l = h !! l).
  destruct (for_each_inv
              (batch_point_step screenPositions results polyX polyY bounds
                 (length stored)) I) with
    (idx := idx) (done := @nil nat) (s := tt) (h := h)
    as ([] & h' & Hrun & HI).
  - intros done i [] h1 (Hr1 & Hframe).
    assert (Hs1 : h1 !! screenPositions = Some (Float32Array s))
      by (rewrite Hframe; done).
    assert (HX1 : h1 !! polyX = Some (Float32Array (map x stored)))
      by (rewrite Hframe; done).
    assert (HY1 : h1 !! polyY = Some (Float32Array (map y stored)))
      by (rewrite Hframe; done).
    unfold batch_point_step.
    rewrite (bind_Return _ _ _ _ _ (f32_get_run h1 _ _ (i * 2) Hs1)).
    rewrite (bind_Return _ _ _ _ _ (f32_get_run h1 _ _ (i * 2 + 1) Hs1)).
    fold (coordinate s (i * 2)). fold (coordinate s (i * 2 + 1)).
    assert (Hgoal : forall v : Z, (v = 0 \/ v = 1)%Z ->
      v = classify bounds stored (coordinate s (i * 2)) (coordinate s (i * 2 + 1)) ->
      exists (s' : unit) (h'0 : heap),
        u8_set results i v h1 = Return (s', h'0) /\ I (done ++ [i]) s' h'0).
    { intros v Hv Hcls.
      rewrite (u8_set_run h1 results _ i v Hr1).
      eexists tt, _. split; [done|]. unfold I.
      rewrite map_app, writes_app. simpl. split.
      - rewrite lookup_insert_eq. rewrite <- Hcls.
        by destruct Hv as [-> | ->].
      - intros l Hl. rewrite lookup_insert_ne by done. by apply Hframe. }
    unfold classify in Hgoal.
    destruct (outside_bounds bounds _ _) eqn:Hout.
    + apply Hgoal; auto.
    + rewrite (bind_Return _ _ _ _ _
                 (batch_ray_run h1 polyX polyY stored _ _ HX1 HY1 Hn)).
      simpl. destruct (isPointInPolygon _ stored); apply Hgoal; auto.
  - by unfold I.
  - by exists h'.
Qed.

Lemma alloc_run (b : typed_array) (h : heap) :
  alloc b h = Return (fresh (dom h), <[fresh (dom h) := b]> h).
Proof. done. Qed.

Lemma map_vertex_seq {B} (f : Point2D -> B) (polygon : list Point2D) :
  map (fun i => f (vertex polygon i)) (seq 0 (length polygon)) = map f polygon.
Proof.
  apply list_eq. intros k. rewrite !list_lookup_fmap.
  destruct (polygon !! k) as [p|] eqn:Hk; simpl.
  - rewrite lookup_seq_lt by (by eapply lookup_lt_Some). simpl.
    unfold vertex. by rewrite (nth_lookup_Some _ _ _ _ Hk).
  - apply lookup_ge_None in Hk. by rewrite lookup_seq_ge.
Qed.

Lemma batchPointsInPolygon_run (h : heap) (screenPositions : loc)
    (s : list number) (polygon : list Point2D) :
  h !! screenPositions = Some (Float32Array s) ->
  exists h',
    batchPointsInPolygon screenPositions polygon h = Return (fresh (dom h), h')
    /\ h' !! fresh (dom h) = Some (Uint8Array (batch_mask s polygon))
    /\ (forall l b, h !! l = Some b -> h' !! l = Some b)
    /\ (length polygon < 3 ->
        h' = <[fresh (dom h) := Uint8Array (replicate (length s / 2) 0%Z)]> h).
Proof.
  intros Hs. unfold batchPointsInPolygon, batch_mask.
  rewrite (bind_Return _ _ _ _ _ (f32_length_run h _ s Hs)).
  unfold newUint8Array, newFloat32Array.
  rewrite (bind_Return _ _ _ _ _ (alloc_run _ h)).
  set (results := fresh (dom h)).
  set (zeros := replicate (length s / 2) 0%Z).
  set (h1 := <[results := Uint8Array zeros]> h).
  assert (Hfresh1 : forall l b, h !! l = Some b -> l <> results)
    by (intros l b Hl; by eapply allocated_not_fresh).
  destruct (Nat.ltb_spec (length polygon) 3) as [Hlt|Hge].
  - exists h1. split; [done|]. split; [by apply lookup_insert_eq|].
    split; [|done].
    intros l b Hl. subst h1. rewrite lookup_insert_ne; [done|].
    intros <-. by eapply Hfresh1.
  - rewrite (bind_Return _ _ _ _ _ (alloc_run _ h1)).
    set (polyX := fresh (dom h1)).
    set (h2 := <[polyX := Float32Array (replicate (length polygon) zero)]> h1).
    rewrite (bind_Return _ _ _ _ _ (alloc_run _ h2)).
    set (polyY := fresh (dom h2)).
    set (h3 := <[polyY := Float32Array (replicate (length polygon) zero)]> h2).
    assert (HrX : results <> polyX).
    { apply (allocated_not_fresh h1 results (Uint8Array zeros)).
      apply lookup_insert_eq. }
    assert (HXY : polyX <> polyY).
    { apply (allocated_not_fresh h2 polyX
               (Float32Array (replicate (length polygon) zero))).
      apply lookup_insert_eq. }
    assert (HrY : results <> polyY).
    { apply (allocated_not_fresh h2 results (Uint8Array zeros)).
      subst h2. rewrite lookup_insert_ne by done. apply lookup_insert_eq. }
    assert (Hold : forall l b, h !! l = Some b ->
               l <> results /\ l <> polyX /\ l <> polyY).
    { intros l b Hl. assert (l <> results) by (by eapply Hfresh1).
      assert (Hl1 : h1 !! l = Some b)
        by (subst h1; by rewrite lookup_insert_ne).
      assert (l <> polyX) by (by eapply allocated_not_fresh).
      assert (Hl2 : h2 !! l = Some b)
        by (subst h2; by rewrite lookup_insert_ne).
      assert (l <> polyY) by (by eapply allocated_not_fresh).
      done. }
    destruct (Hold _ _ Hs) as (Hsr & HsX & HsY).
    destruct (batch_copy_run polygon polyX polyY h3
                (replicate (length polygon) zero)
                (replicate (length polygon) zero)
                (seq 0 (length polygon)) HXY)
      as (h4 & Hcopy & HX4 & HY4 & Hframe4).
    { subst h3. rewrite lookup_insert_ne by done. apply lookup_insert_eq. }
    { apply lookup_insert_eq. }
    rewrite (bind_Return _ _ _ _ _ Hcopy).
    assert (Hxs : forall f : Point2D -> number,
      writes (map (fun i => (i, fround (f (vertex polygon i))))
                (seq 0 (length polygon)))
        (replicate (length polygon) zero)
      = map (fun p => fround (f p)) polygon).
    { intros f.
      pose proof (writes_seq (fun i => fround (f (vertex polygon i)))
                    (replicate (length polygon) zero)) as Hw.
      rewrite length_replicate in Hw. rewrite Hw.
      apply (map_vertex_seq (fun p => fround (f p))). }
    rewrite (Hxs x) in HX4. rewrite (Hxs y) in HY4.
    replace (map (fun p => fround (x p)) polygon)
      with (map x (map round32 polygon)) in HX4
      by (by rewrite map_map).
    replace (map (fun p => fround (y p)) polygon)
      with (map y (map round32 polygon)) in HY4
      by (by rewrite map_map).
    destruct (batch_point_run h4 screenPositions results polyX polyY s zeros
                (getPolygonBounds polygon) (map round32 polygon)
                (seq 0 (turns (length s) 2)))
      as (h5 & Hpoints & Hr5 & Hframe5); try done.
    { rewrite Hframe4 by done. subst h3 h2 h1.
      by rewrite !lookup_insert_ne. }
    { rewrite Hframe4 by done. subst h3 h2 h1.
      rewrite !lookup_insert_ne by done. apply lookup_insert_eq. }
    { by rewrite length_map. }
    rewrite length_map in Hpoints.
    rewrite (bind_Return _ _ _ _ _ Hpoints).
    exists h5. split; [done|]. split; [done|]. split; [|lia].
    intros l b Hl. destruct (Hold _ _ Hl) as (Hlr & HlX & HlY).
    rewrite Hframe5, Hframe4 by done. subst h3 h2 h1.
    by rewrite !lookup_insert_ne.
Qed.

Lemma batch_mask_length (s : list number) (polygon : list Point2D) :
  length (batch_mask s polygon) = length s / 2.
Proof.
  unfold batch_mask. destruct (length polygon <? 3).
  - apply length_replicate.
  - by rewrite writes_length, length_replicate.
Qed.

Lemma batch_mask_lookup (s : list number) (polygon : list Point2D) (i : nat) :
  3 <= length polygon -> i < length s / 2 ->
  batch_mask s polygon !! i
  = Some (classify (getPolygonBounds polygon) (map round32 polygon)
            (coordinate s (i * 2)) (coordinate s (i * 2 + 1))).
Proof.
  intros Hn Hi. unfold batch_mask.
  destruct (Nat.ltb_spec (length polygon) 3); [lia|].
  apply writes_lookup.
  - by rewrite length_replicate.
  - apply (list_elem_of_fmap_2
             (fun i => (i, classify (getPolygonBounds polygon)
                             (map round32 polygon)
                             (coordinate s (i * 2)) (coordinate s (i * 2 + 1))))).
    apply elem_of_seq.
    assert (length s / 2 <= turns (length s) 2)
      by (unfold turns; apply Nat.Div0.div_le_mono; lia).
    lia.
  - intros v' Hv'. apply list_elem_of_fmap in Hv' as (j & Heq & _).
    by inversion Heq.
Qed.

(** C1, as amended: for a buffer of [2 * N] screen coordinates and a polygon
    with at least 3 vertices, the classifier returns a fresh mask of length
    [N] with [mask[i] = 1] exactly when point [i] lies inside the bounding
    box of the polygon and [isPointInPolygon] accepts it against the
    vertices rounded to single precision, and [mask[i] = 0] otherwise.  When
    every vertex coordinate is a single-precision value, the vertices are
    the given ones. *)
Theorem batchPointsInPolygon_mask (h : heap) (screenPositions : loc)
    (s : list number) (polygon : list Point2D) (N : nat) :
  h !! screenPositions = Some (Float32Array s) ->
  length s = 2 * N ->
  3 <= length polygon ->
  exists results mask h',
    batchPointsInPolygon screenPositions polygon h = Return (results, h')
    /\ h' !! results = Some (Uint8Array mask)
    /\ length mask = N
    /\ (forall i, i < N ->
          mask !! i = Some (if selected polygon (map round32 polygon)
                                 (coordinate s (i * 2)) (coordinate s (i * 2 + 1))
                            then 1 else 0)%Z)
    /\ (Forall single_precision polygon ->
        forall i, i < N ->
          mask !! i = Some (if selected polygon polygon
                                 (coordinate s (i * 2)) (coordinate s (i * 2 + 1))
                            then 1 else 0)%Z).
Proof.
  intros Hs Hlen Hn.
  destruct (batchPointsInPolygon_run h screenPositions s polygon Hs)
    as (h' & Hrun & Hmask & _ & _).
  assert (HN : length s / 2 = N).
  { rewrite Hlen, Nat.mul_comm. by apply Nat.div_mul. }
  assert (Hall : forall i, i < N ->
    batch_mask s polygon !! i
    = Some (if selected polygon (map round32 polygon)
                 (coordinate s (i * 2)) (coordinate s (i * 2 + 1))
            then 1 else 0)%Z).
  { intros i Hi. rewrite batch_mask_lookup by (done || lia).
    unfold classify, selected.
    by destruct (outside_bounds _ _ _), (isPointInPolygon _ _). }
  exists (fresh (dom h)), (batch_mask s polygon), h'.
  split; [done|]. split; [done|]. split; [by rewrite batch_mask_length|].
  split; [done|].
  intros Hsingle i Hi.
  assert (Hid : map round32 polygon = polygon).
  { clear -Hsingle. induction Hsingle as [|p polygon Hp _ IH]; [done|].
    simpl. by rewrite Hp, IH. }
  specialize (Hall i Hi). by rewrite Hid in Hall.
Qed.

(** C2: on a polygon with fewer than 3 vertices, [isPointInPolygon] is false
    for every point, and the classifier returns, for every buffer of screen
    coordinates, a fresh all-zero mask of half the buffer's length; that
    allocation is its only effect on the heap. *)
Theorem degenerate_polygon (h : heap) (screenPositions : loc)
    (s : list number) (polygon : list Point2D) (point : Point2D) :
  h !! screenPositions = Some (Float32Array s) ->
  length polygon < 3 ->
  isPointInPolygon point polygon = false
  /\ batchPointsInPolygon screenPositions polygon h
     = Return (fresh (dom h),
               <[fresh (dom h) := Uint8Array (replicate (length s / 2) 0%Z)]> h).
Proof.
  intros Hs Hn. split.
  - unfold isPointInPolygon.
    by destruct (Nat.ltb_spec (length polygon) 3); [|lia].
  - destruct (batchPointsInPolygon_run h screenPositions s polygon Hs)
      as (h' & Hrun & _ & _ & Hdeg).
    by rewrite Hrun, (Hdeg Hn).
Qed.

(** C6: the mask depends on the contents of the screen-position buffer and
    on the polygon only.  Two calls with identical buffer contents and
    identical polygons, from any two heaps, both return and their masks are
    identical. *)
Theorem batchPointsInPolygon_deterministic (h1 h2 : heap) (sp1 sp2 : loc)
    (s1 s2 : list number) (polygon1 polygon2 : list Point2D) :
  h1 !! sp1 = Some (Float32Array s1) ->
  h2 !! sp2 = Some (Float32Array s2) ->
  s1 = s2 -> polygon1 = polygon2 ->
  exists r1 r2 h1' h2' mask,
    batchPointsInPolygon sp1 polygon1 h1 = Return (r1, h1')
    /\ batchPointsInPolygon sp2 polygon2 h2 = Return (r2, h2')
    /\ h1' !! r1 = Some (Uint8Array mask)
    /\ h2' !! r2 = Some (Uint8Array mask).
Proof.
  intros Hs1 Hs2 -> ->.
  destruct (batchPointsInPolygon_run h1 sp1 s2 polygon2 Hs1)
    as (h1' & Hrun1 & Hmask1 & _).
  destruct (batchPointsInPolygon_run h2 sp2 s2 polygon2 Hs2)
    as (h2' & Hrun2 & Hmask2 & _).
  by exists (fresh (dom h1)), (fresh (dom h2)), h1', h2', (batch_mask s2 polygon2).
Qed.

(** ** The screen projector *)

Lemma project_loop_run (h : heap) (positions screenPositions : loc)
    (ps acc : list number) (e : nat -> number) (halfWidth halfHeight : number)
    (idx : list nat) :
  screenPositions <> positions ->
  h !! positions = Some (Float32Array ps) ->
  h !! screenPositions = Some (Float32Array acc) ->
  exists h',
    for_each idx (project_step positions screenPositions e halfWidth halfHeight)
      tt h = Return (tt, h')
    /\ h' !! screenPositions = Some (Float32Array
         (writes (flat_map (project_writes e halfWidth halfHeight ps) idx) acc))
    /\ forall l, l <> screenPositions -> h' !! l = h !! l.
Proof.
  intros Hne Hps Hacc.
  pose (I := fun (done : list nat) (_ : unit) (h' : heap) =>
    h' !! screenPositions = Some (Float32Array
      (writes (flat_map (project_writes e halfWidth halfHeight ps) done) acc))
    /\ forall l, l <> screenPositions -> h' !! l = h !! l).
  destruct (for_each_inv
              (project_step positions screenPositions e halfWidth halfHeight) I)
    with (idx := idx) (done := @nil nat) (s := tt) (h := h)
    as ([] & h' & Hrun & HI).
  - intros done i [] h1 (Hacc1 & Hframe).
    assert (Hps1 : h1 !! positions = Some (Float32Array ps))
      by (rewrite Hframe; done).
    unfold project_step.
    rewrite (bind_Return _ _ _ _ _ (f32_get_run h1 _ _ (i * 3) Hps1)).
    rewrite (bind_Return _ _ _ _ _ (f32_get_run h1 _ _ (i * 3 + 1) Hps1)).
    rewrite (bind_Return _ _ _ _ _ (f32_get_run h1 _ _ (i * 3 + 2) Hps1)).
    fold (coordinate ps (i * 3)). fold (coordinate ps (i * 3 + 1)).
    fold (coordinate ps (i * 3 + 2)).
    assert (Hgoal : forall sx sy : number,
      (sx, sy) = project_point e halfWidth halfHeight (coordinate ps (i * 3))
                   (coordinate ps (i * 3 + 1)) (coordinate ps (i * 3 + 2)) ->
      exists (s' : unit) (h'0 : heap),
        (f32_set screenPositions (i * 2) sx;;
         f32_set screenPositions (i * 2 + 1) sy) h1 = Return (s', h'0)
        /\ I (done ++ [i]) s' h'0).
    { intros sx sy Hxy.
      rewrite (bind_Return _ _ _ _ _ (f32_set_run h1 _ _ (i * 2) sx Hacc1)).
      erewrite f32_set_run by apply lookup_insert_eq.
      eexists tt, _. split; [done|]. unfold I.
      rewrite flat_map_app, writes_app. cbn [flat_map]. rewrite app_nil_r.
      unfold project_writes. rewrite <- Hxy. simpl. split.
      - by rewrite lookup_insert_eq.
      - intros l Hl. rewrite !lookup_insert_ne by done. by apply Hframe. }
    unfold project_point in Hgoal.
    destruct (strict_eq _ zero); by apply Hgoal.
  - by unfold I.
  - by exists h'.
Qed.

Lemma projectPointsToScreen_run `{THREE} (h : heap) (positions : loc)
    (ps : list number) (camera : Camera) (width height : number) :
  h !! positions = Some (Float32Array ps) ->
  projectPointsToScreen positions camera width height h
  = Return (fresh (dom h),
            <[fresh (dom h) := Float32Array (screen_buffer ps camera width height)]> h).
Proof.
  intros Hps. unfold projectPointsToScreen.
  rewrite (bind_Return _ _ _ _ _ (f32_length_run h _ ps Hps)).
  unfold newFloat32Array. rewrite (bind_Return _ _ _ _ _ (alloc_run _ h)).
  set (out := fresh (dom h)).
  set (h1 := <[out := Float32Array (replicate (length ps * 2 / 3) zero)]> h).
  assert (Hne : out <> positions)
    by (apply not_eq_sym; by eapply allocated_not_fresh).
  destruct (project_loop_run h1 positions out ps
              (replicate (length ps * 2 / 3) zero)
              (mvp camera) (div width two) (div height two)
              (seq 0 (turns (length ps) 3)) Hne)
    as (h2 & Hloop & Hout & Hframe).
  { subst h1. by rewrite lookup_insert_ne. }
  { apply lookup_insert_eq. }
  unfold mvp in Hloop. rewrite (bind_Return _ _ _ _ _ Hloop).
  unfold ret. do 2 f_equal. apply map_eq. intros l.
  destruct (decide (l = out)) as [->|Hl].
  - by rewrite Hout, lookup_insert_eq.
  - rewrite Hframe by done. subst h1. by rewrite !lookup_insert_ne.
Qed.

Lemma point_slots (len i : nat) : i < len / 3 -> i * 2 + 2 <= len * 2 / 3.
Proof.
  intros Hi. pose proof (Nat.Div0.mul_div_le len 3).
  apply Nat.div_le_lower_bound; lia.
Qed.

Lemma point_turn (len k i : nat) : 0 < k -> i < len / k -> i < turns len k.
Proof.
  intros Hk Hi. unfold turns.
  assert (len / k <= (len + (k - 1)) / k)
    by (apply Nat.Div0.div_le_mono; lia).
  lia.
Qed.

Lemma screen_buffer_length `{THREE} (ps : list number) (camera : Camera)
    (width height : number) :
  length (screen_buffer ps camera width height) = length ps * 2 / 3.
Proof. unfold screen_buffer. by rewrite writes_length, length_replicate. Qed.

Lemma project_writes_elem (e : nat -> number) (hw hh : number)
    (ps : list number) (m k : nat) (v : number) :
  (k, v) ∈ flat_map (project_writes e hw hh ps) (seq 0 m) <->
  exists j, j < m /\
    let sxy := project_point e hw hh (coordinate ps (j * 3))
                 (coordinate ps (j * 3 + 1)) (coordinate ps (j * 3 + 2)) in
    (k = j * 2 /\ v = fround (fst sxy)) \/ (k = j * 2 + 1 /\ v = fround (snd sxy)).
Proof.
  rewrite list_elem_of_In, in_flat_map. split.
  - intros (j & Hj & Hin). exists j. apply in_seq in Hj. split; [lia|].
    simpl in Hin. destruct Hin as [Heq|[Heq|[]]]; inversion Heq; auto.
  - intros (j & Hj & Hcase). exists j. split; [apply in_seq; lia|].
    simpl. destruct Hcase as [[-> ->]|[-> ->]]; auto.
Qed.

Lemma screen_buffer_lookup `{THREE} (ps : list number) (camera : Camera)
    (width height : number) (i : nat) :
  i < length ps / 3 ->
  let sxy := project_point (mvp camera) (div width two) (div height two)
               (coordinate ps (i * 3)) (coordinate ps (i * 3 + 1))
               (coordinate ps (i * 3 + 2)) in
  screen_buffer ps camera width height !! (i * 2) = Some (fround (fst sxy))
  /\ screen_buffer ps camera width height !! (i * 2 + 1) = Some (fround (snd sxy)).
Proof.
  intros Hi sxy. pose proof (point_slots _ _ Hi).
  pose proof (point_turn (length ps) 3 i ltac:(lia) Hi).
  unfold screen_buffer. split; apply writes_lookup.
  - rewrite length_replicate. lia.
  - apply project_writes_elem. exists i. split; [done|]. by left.
  - intros v' Hv'. apply project_writes_elem in Hv' as (j & _ & Hcase).
    destruct Hcase as [[Hk ->]|[Hk ->]]; [|lia].
    by replace j with i by lia.
  - rewrite length_replicate. lia.
  - apply project_writes_elem. exists i. split; [done|]. by right.
  - intros v' Hv'. apply project_writes_elem in Hv' as (j & _ & Hcase).
    destruct Hcase as [[Hk ->]|[Hk ->]]; [lia|].
    by replace j with i by lia.
Qed.

Lemma fround_neg_Infinity : fround neg_Infinity = neg_Infinity.
Proof. done. Qed.

(** The box of a polygon with finite coordinates never reaches [-inf] on
    the left. *)
Lemma finite_polygon_minX (polygon : list Point2D) :
  Forall finite_point polygon ->
  lt neg_Infinity (minX (getPolygonBounds polygon)) = true.
Proof.
  intros Hfin. unfold getPolygonBounds. rewrite getPolygonBounds_fold. simpl.
  assert (Hxs : Forall (fun v => is_finite v = true) (map x polygon)).
  { apply Forall_map. eapply Forall_impl; [done|]. by intros p [? ?]. }
  destruct (running_min_spec (map x polygon) Infinity) as (_ & _ & _ & [->|Hin]).
  - eapply Forall_impl; [exact Hxs|]. by intros [[]|[]| |[] ? ?].
  - done.
  - done.
  - apply lt_neg_Infinity_finite.
    by apply (proj1 (Forall_forall _ _) Hxs).
Qed.

(** C3: the projector returns on every position buffer (it never throws);
    for every complete input point [i] whose homogeneous coordinate [w]
    equals 0, the screen buffer holds [-inf] at both of the point's slots;
    and for every polygon with finite vertex coordinates the classifier, run
    on that screen buffer, returns a mask with [mask[i] = 0]. *)
Theorem w_zero_sentinel `{THREE} (h : heap) (positions : loc)
    (ps : list number) (camera : Camera) (width height : number) :
  h !! positions = Some (Float32Array ps) ->
  exists screen buf h1,
    projectPointsToScreen positions camera width height h = Return (screen, h1)
    /\ h1 !! screen = Some (Float32Array buf)
    /\ forall i, i < length ps / 3 ->
         strict_eq (row (mvp camera) 3 7 11 15 (coordinate ps (i * 3))
                      (coordinate ps (i * 3 + 1)) (coordinate ps (i * 3 + 2)))
           zero = true ->
         buf !! (i * 2) = Some neg_Infinity
         /\ buf !! (i * 2 + 1) = Some neg_Infinity
         /\ forall polygon, Forall finite_point polygon ->
              exists results mask h2,
                batchPointsInPolygon screen polygon h1 = Return (results, h2)
                /\ h2 !! results = Some (Uint8Array mask)
                /\ mask !! i = Some 0%Z.
Proof.
  intros Hps.
  eexists (fresh (dom h)), (screen_buffer ps camera width height), _.
  split; [by apply projectPointsToScreen_run|].
  split; [by apply lookup_insert_eq|].
  intros i Hi Hw.
  destruct (screen_buffer_lookup ps camera width height i Hi) as [Hsx Hsy].
  unfold project_point in Hsx, Hsy. rewrite Hw in Hsx, Hsy. simpl in Hsx, Hsy.
  split; [done|]. split; [done|].
  intros polygon Hfin.
  set (h1 := <[fresh (dom h) := _]> h).
  destruct (batchPointsInPolygon_run h1 (fresh (dom h))
              (screen_buffer ps camera width height) polygon)
    as (h2 & Hrun & Hmask & _).
  { apply lookup_insert_eq. }
  eexists (fresh (dom h1)), _, h2. split; [done|]. split; [done|].
  pose proof (point_slots _ _ Hi) as Hslots.
  assert (Hmi : i < length (screen_buffer ps camera width height) / 2).
  { rewrite screen_buffer_length.
    apply (Nat.lt_le_trans _ (i + 1)); [lia|].
    apply Nat.div_le_lower_bound; lia. }
  destruct (Nat.lt_ge_cases (length polygon) 3) as [Hlt|Hge].
  - unfold batch_mask. destruct (Nat.ltb_spec (length polygon) 3); [|lia].
    by apply lookup_replicate_2.
  - rewrite batch_mask_lookup by done. f_equal.
    unfold classify, coordinate. rewrite Hsx. simpl.
    unfold outside_bounds. by rewrite (finite_polygon_minX polygon Hfin).
Qed.

(** C4: for a position buffer of length [3 * N], the projector returns a
    fresh buffer of length [2 * N]; for every point [i] whose homogeneous
    coordinate [w] is not 0, slot [2 * i] holds
    [screenX = (ndcX + 1) * (width / 2)] and slot [2 * i + 1] holds
    [screenY = (1 - ndcY) * (height / 2)], where [ndcX] and [ndcY] are rows 1
    and 2 of the view-projection matrix applied to [(x, y, z, 1)] and
    divided by [w].  The arithmetic is the source's: the division by [w] is
    the product with [invW = 1 / w], and a slot of the [Float32Array] holds
    its value in single precision. *)
Theorem projectPointsToScreen_pixels `{THREE} (h : heap) (positions : loc)
    (ps : list number) (camera : Camera) (width height : number) (N : nat) :
  h !! positions = Some (Float32Array ps) ->
  length ps = 3 * N ->
  exists screen buf h',
    projectPointsToScreen positions camera width height h = Return (screen, h')
    /\ h !! screen = None
    /\ h' !! screen = Some (Float32Array buf)
    /\ length buf = 2 * N
    /\ forall i, i < N ->
         let e := mvp camera in
         let px := coordinate ps (i * 3) in
         let py := coordinate ps (i * 3 + 1) in
         let pz := coordinate ps (i * 3 + 2) in
         let w := row e 3 7 11 15 px py pz in
         let ndcX := mul (row e 0 4 8 12 px py pz) (div one w) in
         let ndcY := mul (row e 1 5 9 13 px py pz) (div one w) in
         strict_eq w zero = false ->
         buf !! (i * 2) = Some (fround (mul (add ndcX one) (div width two)))
         /\ buf !! (i * 2 + 1)
            = Some (fround (mul (sub one ndcY) (div height two))).
Proof.
  intros Hps Hlen.
  assert (HN : length ps / 3 = N).
  { rewrite Hlen, Nat.mul_comm. by apply Nat.div_mul. }
  eexists (fresh (dom h)), (screen_buffer ps camera width height), _.
  split; [by apply projectPointsToScreen_run|].
  split; [apply fresh_not_allocated|].
  split; [by apply lookup_insert_eq|].
  split.
  - rewrite screen_buffer_length, Hlen.
    replace (3 * N * 2) with (2 * N * 3) by lia. by apply Nat.div_mul.
  - intros i Hi e px py pz w ndcX ndcY Hw.
    destruct (screen_buffer_lookup ps camera width height i) as [Hsx Hsy];
      [lia|].
    unfold project_point in Hsx, Hsy.
    fold e px py pz in Hsx, Hsy. fold w in Hsx, Hsy.
    rewrite Hw in Hsx, Hsy. by split.
Qed.

(** C9: the projector and the classifier only read their input buffers.
    The projector returns a reference that was not allocated before the
    call, and the heap after the call is the heap before it plus the new
    screen buffer of length [2 * N].  The classifier returns a reference
    that was not allocated before the call and that holds the mask of length
    [N] afterwards, and every buffer allocated before the call, the
    screen-position buffer among them, has its contents unchanged. *)
Theorem inputs_not_mutated `{THREE} (h : heap) (positions : loc)
    (ps : list number) (camera : Camera) (width height : number)
    (g : heap) (screenPositions : loc) (s : list number)
    (polygon : list Point2D) :
  h !! positions = Some (Float32Array ps) ->
  g !! screenPositions = Some (Float32Array s) ->
  (exists screen buf,
     projectPointsToScreen positions camera width height h
     = Return (screen, <[screen := Float32Array buf]> h)
     /\ h !! screen = None
     /\ length buf = length ps * 2 / 3
     /\ <[screen := Float32Array buf]> h !! positions = Some (Float32Array ps))
  /\ (exists results mask g',
        batchPointsInPolygon screenPositions polygon g = Return (results, g')
        /\ g !! results = None
        /\ g' !! results = Some (Uint8Array mask)
        /\ length mask = length s / 2
        /\ g' !! screenPositions = Some (Float32Array s)
        /\ forall l b, g !! l = Some b -> g' !! l = Some b).
Proof.
  intros Hps Hs. split.
  - exists (fresh (dom h)), (screen_buffer ps camera width height).
    split; [by apply projectPointsToScreen_run|].
    split; [apply fresh_not_allocated|].
    split; [apply screen_buffer_length|].
    rewrite lookup_insert_ne; [done|].
    apply not_eq_sym. by eapply allocated_not_fresh.
  - destruct (batchPointsInPolygon_run g screenPositions s polygon Hs)
      as (g' & Hrun & Hmask & Hframe & _).
    exists (fresh (dom g)), (batch_mask s polygon), g'.
    split; [done|]. split; [apply fresh_not_allocated|].
    split; [done|]. split; [apply batch_mask_length|].
    split; [by apply Hframe|done].
Qed.

(** ** Lasso capture *)

Lemma handleMouseMove_drawing (rect : DOMRect.t) (e : MouseEvent)
    (st : LassoSelector) (lastPoint : Point2D) :
  isDrawing st = true ->
  last (pathRef st) = Some lastPoint ->
  handleMouseMove rect e st
  = Return (if lt (squared_distance (pointer rect e) lastPoint) sixteen
            then st
            else mkLassoSelector true (pathRef st ++ [pointer rect e])).
Proof.
  intros Hdraw Hlast. unfold handleMouseMove. rewrite Hdraw, Hlast. simpl.
  by destruct (lt _ sixteen).
Qed.

Lemma mouseMoves_dense (moves : list (DOMRect.t * MouseEvent))
    (st : LassoSelector) (lastPoint : Point2D) :
  isDrawing st = true ->
  last (pathRef st) = Some lastPoint ->
  (forall rect e, (rect, e) ∈ moves ->
     lt (squared_distance (pointer rect e) lastPoint) sixteen = true) ->
  mouseMoves moves st = Return st.
Proof.
  intros Hdraw Hlast. induction moves as [|[rect e] moves IH]; intros Hdense.
  - done.
  - simpl. rewrite (handleMouseMove_drawing rect e st lastPoint Hdraw Hlast).
    rewrite (Hdense rect e) by left. apply IH.
    intros rect' e' Hin. apply Hdense. by right.
Qed.

(** Within a gesture the path is never empty, so no move throws; the path
    only grows, by at most one vertex per move. *)
Lemma mouseMoves_drawing (moves : list (DOMRect.t * MouseEvent))
    (st : LassoSelector) :
  isDrawing st = true -> pathRef st <> [] ->
  exists st',
    mouseMoves moves st = Return st'
    /\ isDrawing st' = true
    /\ pathRef st `prefix_of` pathRef st'
    /\ length (pathRef st') <= length (pathRef st) + length moves.
Proof.
  revert st. induction moves as [|[rect e] moves IH]; intros st Hdraw Hpath.
  - exists st. repeat split; [done|done|simpl; lia].
  - destruct (last (pathRef st)) as [lastPoint|] eqn:Hlast;
      [|by apply last_None in Hlast].
    simpl. rewrite (handleMouseMove_drawing rect e st lastPoint Hdraw Hlast).
    destruct (lt _ sixteen).
    + destruct (IH st Hdraw Hpath) as (st' & Hrun & Hdraw' & Hpre & Hlen).
      exists st'. repeat split; [done..|lia].
    + destruct (IH (mkLassoSelector true (pathRef st ++ [pointer rect e])))
        as (st' & Hrun & Hdraw' & Hpre & Hlen); [done|by destruct (pathRef st)|].
      exists st'. simpl in *. rewrite length_app in Hlen. simpl in Hlen.
      repeat split; [done|done| |lia].
      etrans; [|exact Hpre]. by apply prefix_app_r.
Qed.

(** Releasing the pointer ends the gesture and hands the polygon over only
    if it has at least 3 vertices. *)
Lemma handleMouseUp_drawing (st : LassoSelector) :
  isDrawing st = true ->
  handleMouseUp st
  = (mkLassoSelector false (pathRef st),
     if 3 <=? length (pathRef st) then Some (pathRef st) else None).
Proof.
  intros Hdraw. unfold handleMouseUp. rewrite Hdraw. simpl.
  by destruct (length (pathRef st)) as [|[|[|n]]].
Qed.

Lemma app_singleton_neq {A} (l : list A) (a : A) : l ++ [a] <> l.
Proof.
  intros Heq. apply (f_equal length) in Heq.
  rewrite length_app in Heq. simpl in Heq. lia.
Qed.

(** C7: while the lasso is being drawn, a pointer-move sample is appended to
    the polygon exactly when its squared distance from the last recorded
    vertex is not below 16 (for a distance that is a number: when it is at
    least 16); in particular a sample at a squared distance above 16 is
    never discarded.  Consequently a run of samples that all stay below the
    threshold from the last recorded vertex leaves the polygon unchanged,
    and a gesture made of the pointer-down sample followed by one or more
    such moves captures a polygon of one vertex, strictly fewer than the
    samples fed. *)
Theorem downsampling (rect0 : DOMRect.t) (e0 : MouseEvent) (st0 : LassoSelector) :
  (forall st rect e lastPoint,
     isDrawing st = true -> last (pathRef st) = Some lastPoint ->
     let p := pointer rect e in
     let d2 := squared_distance p lastPoint in
     exists st',
       handleMouseMove rect e st = Return st'
       /\ isDrawing st' = true
       /\ (pathRef st' = pathRef st ++ [p] <-> lt d2 sixteen = false)
       /\ (pathRef st' = pathRef st <-> lt d2 sixteen = true)
       /\ (is_nan d2 = false -> (lt d2 sixteen = false <-> le sixteen d2 = true))
       /\ (lt sixteen d2 = true -> pathRef st' = pathRef st ++ [p]))
  /\ (forall st lastPoint moves,
        isDrawing st = true -> last (pathRef st) = Some lastPoint ->
        (forall rect e, (rect, e) ∈ moves ->
           lt (squared_distance (pointer rect e) lastPoint) sixteen = true) ->
        mouseMoves moves st = Return st)
  /\ (forall moves,
        moves <> [] ->
        (forall rect e, (rect, e) ∈ moves ->
           lt (squared_distance (pointer rect e) (pointer rect0 e0)) sixteen
           = true) ->
        exists st',
          mouseMoves moves (handleMouseDown rect0 e0 st0) = Return st'
          /\ pathRef st' = [pointer rect0 e0]
          /\ length (pathRef st') < 1 + length moves).
Proof.
  split; [|split].
  - intros st rect e lastPoint Hdraw Hlast p d2.
    rewrite (handleMouseMove_drawing rect e st lastPoint Hdraw Hlast).
    fold p. fold d2. eexists. split; [done|].
    destruct (lt d2 sixteen) eqn:Hlt; simpl.
    + split; [done|]. split.
      { split; [|done]. intros Heq. symmetry in Heq.
        by apply app_singleton_neq in Heq. }
      split; [done|]. split.
      { intros Hnan. split; [done|]. intros Hle.
        apply not_lt_iff_le in Hle; [congruence|done..]. }
      intros Hgt. apply lt_not_lt in Hgt. congruence.
    + split; [done|]. split; [done|]. split.
      { split; [|done]. intros Heq. by apply app_singleton_neq in Heq. }
      split; [|done].
      intros Hnan. split; [|done]. intros _. by apply not_lt_le.
  - intros st lastPoint moves. apply mouseMoves_dense.
  - intros moves Hne Hdense.
    exists (handleMouseDown rect0 e0 st0).
    split; [by apply (mouseMoves_dense moves _ (pointer rect0 e0))|].
    split; [done|]. simpl. destruct moves; [done|simpl; lia].
Qed.

(** ** Point colours *)

Lemma color_loop_run (h : heap) (indices colors : loc) (mask : list Z)
    (acc : list number) (c : Color.t) (idx : list nat) :
  h !! indices = Some (Uint8Array mask) ->
  h !! colors = Some (Float32Array acc) ->
  exists h',
    for_each idx (color_step indices colors c) tt h = Return (tt, h')
    /\ h' !! colors = Some (Float32Array
         (writes (flat_map (color_writes mask c) idx) acc))
    /\ forall l, l <> colors -> h' !! l = h !! l.
Proof.
  intros Hmask Hacc.
  assert (Hne : indices <> colors) by (intros ->; congruence).
  pose (I := fun (done : list nat) (_ : unit) (h' : heap) =>
    h' !! colors = Some (Float32Array
      (writes (flat_map (color_writes mask c) done) acc))
    /\ forall l, l <> colors -> h' !! l = h !! l).
  destruct (for_each_inv (color_step indices colors c) I)
    with (idx := idx) (done := @nil nat) (s := tt) (h := h)
    as ([] & h' & Hrun & HI).
  - intros done i [] h1 (Hacc1 & Hframe).
    assert (Hmask1 : h1 !! indices = Some (Uint8Array mask))
      by (rewrite Hframe; done).
    unfold color_step.
    rewrite (bind_Return _ _ _ _ _ (u8_get_run h1 _ _ i Hmask1)).
    unfold I. rewrite flat_map_app, writes_app. cbn [flat_map].
    rewrite app_nil_r.
    assert (Hw : color_writes mask c i
                 = if (default 0%Z (mask !! i) =? 0)%Z then []
                   else [(i * 3, fround (Color.r c));
                         (i * 3 + 1, fround (Color.g c));
                         (i * 3 + 2, fround (Color.b c))]) by done.
    rewrite Hw. clear Hw.
    destruct (default 0%Z (mask !! i) =? 0)%Z.
    + exists tt, h1. by split.
    + rewrite (bind_Return _ _ _ _ _ (f32_set_run h1 _ _ (i * 3) _ Hacc1)).
      erewrite bind_Return
        by (apply f32_set_run; apply lookup_insert_eq).
      erewrite f32_set_run by apply lookup_insert_eq.
      eexists tt, _. split; [done|]. simpl. split.
      * by rewrite lookup_insert_eq.
      * intros l Hl. rewrite !lookup_insert_ne by done. by apply Hframe.
  - by unfold I.
  - by exists h'.
Qed.

Lemma setPointColors_run (h : heap) (pc : PointCloudData)
    (colors indices : loc) (current original : list number) (mask : list Z)
    (c : Color.t) :
  color (geometry pc) = Some colors ->
  colors <> originalColors pc ->
  h !! colors = Some (Float32Array current) ->
  h !! originalColors pc = Some (Float32Array original) ->
  length current = length original ->
  h !! indices = Some (Uint8Array mask) ->
  setPointColors (Some pc) indices c h
  = Return (tt, <[colors := Float32Array (recolour original mask c)]> h).
Proof.
  intros Hattr Hne Hcur Horig Hlen Hmask.
  assert (Hic : indices <> colors) by (intros ->; congruence).
  unfold setPointColors. rewrite Hattr.
  assert (Hset : f32_set_from colors (originalColors pc) h
                 = Return (tt, <[colors := Float32Array original]> h)).
  { unfold f32_set_from. rewrite Hcur, Horig.
    destruct (Nat.ltb_spec (length current) (length original)); [lia|].
    by rewrite <- Hlen, drop_all, app_nil_r. }
  rewrite (bind_Return _ _ _ _ _ Hset).
  set (h1 := <[colors := Float32Array original]> h).
  assert (Hmask1 : h1 !! indices = Some (Uint8Array mask))
    by (subst h1; by rewrite lookup_insert_ne).
  rewrite (bind_Return _ _ _ _ _ (u8_length_run h1 _ mask Hmask1)).
  destruct (color_loop_run h1 indices colors mask original c
              (seq 0 (length mask)) Hmask1)
    as (h2 & Hloop & Hcol & Hframe).
  { apply lookup_insert_eq. }
  rewrite (bind_Return _ _ _ _ _ Hloop).
  unfold ret. do 2 f_equal. apply map_eq. intros l.
  destruct (decide (l = colors)) as [->|Hl].
  - by rewrite Hcol, lookup_insert_eq.
  - rewrite Hframe by done. subst h1. by rewrite !lookup_insert_ne.
Qed.

Lemma color_writes_elem (mask : list Z) (c : Color.t) (m k : nat) (v : number) :
  (k, v) ∈ flat_map (color_writes mask c) (seq 0 m) <->
  exists j, j < m /\ default 0%Z (mask !! j) <> 0%Z /\
    ((k = j * 3 /\ v = fround (Color.r c))
     \/ (k = j * 3 + 1 /\ v = fround (Color.g c))
     \/ (k = j * 3 + 2 /\ v = fround (Color.b c))).
Proof.
  rewrite list_elem_of_In, in_flat_map. split.
  - intros (j & Hj & Hin). exists j. apply in_seq in Hj. split; [lia|].
    unfold color_writes in Hin.
    destruct (Z.eqb_spec (default 0%Z (mask !! j)) 0); [done|].
    split; [done|]. simpl in Hin.
    destruct Hin as [Heq|[Heq|[Heq|[]]]]; inversion Heq; auto.
  - intros (j & Hj & Hsel & Hcase). exists j. split; [apply in_seq; lia|].
    unfold color_writes.
    destruct (Z.eqb_spec (default 0%Z (mask !! j)) 0); [done|]. simpl.
    destruct Hcase as [[-> ->]|[[-> ->]|[-> ->]]]; auto.
Qed.

Lemma recolour_selected (original : list number) (mask : list Z) (c : Color.t)
    (i : nat) (flag : Z) :
  i * 3 + 2 < length original ->
  mask !! i = Some flag -> flag <> 0%Z ->
  recolour original mask c !! (i * 3) = Some (fround (Color.r c))
  /\ recolour original mask c !! (i * 3 + 1) = Some (fround (Color.g c))
  /\ recolour original mask c !! (i * 3 + 2) = Some (fround (Color.b c)).
Proof.
  intros Hi Hflag Hsel.
  assert (Hlt : i < length mask) by (by eapply lookup_lt_Some).
  assert (Hmem : forall k v,
    (k = i * 3 /\ v = fround (Color.r c))
    \/ (k = i * 3 + 1 /\ v = fround (Color.g c))
    \/ (k = i * 3 + 2 /\ v = fround (Color.b c)) ->
    recolour original mask c !! k = Some v).
  { intros k v Hcase. unfold recolour. apply writes_lookup.
    - destruct Hcase as [[-> _]|[[-> _]|[-> _]]]; lia.
    - apply color_writes_elem. exists i. rewrite Hflag. by simpl.
    - intros v' Hv'. apply color_writes_elem in Hv' as (j & _ & _ & Hj).
      destruct Hcase as [[-> ->]|[[-> ->]|[-> ->]]];
        destruct Hj as [[? ->]|[[? ->]|[? ->]]]; (done || lia). }
  repeat split; apply Hmem; auto.
Qed.

Lemma recolour_unselected (original : list number) (mask : list Z)
    (c : Color.t) (i k : nat) :
  default 0%Z (mask !! i) = 0%Z -> k < 3 ->
  recolour original mask c !! (i * 3 + k) = original !! (i * 3 + k).
Proof.
  intros Hflag Hk. unfold recolour. apply writes_lookup_other.
  intros v Hv. apply color_writes_elem in Hv as (j & _ & Hsel & Hj).
  assert (j = i) as -> by lia. done.
Qed.

Lemma recolour_length (original : list number) (mask : list Z) (c : Color.t) :
  length (recolour original mask c) = length original.
Proof. apply writes_length. Qed.

(** C8: [setPointColors] writes a colour buffer that is a function of the
    saved original colours, the mask and the colour alone, whatever colours
    a previous selection left in the buffer: every point [i] with
    [mask[i] = 1] holds the given colour (in the single precision of the
    colour buffer) and every point [i] with [mask[i] = 0] holds its original
    colour.  The saved original colours are not touched. *)
Theorem setPointColors_replaces (h : heap) (pc : PointCloudData)
    (colors indices : loc) (current original : list number) (mask : list Z)
    (c : Color.t) :
  color (geometry pc) = Some colors ->
  colors <> originalColors pc ->
  h !! colors = Some (Float32Array current) ->
  h !! originalColors pc = Some (Float32Array original) ->
  length current = length original ->
  h !! indices = Some (Uint8Array mask) ->
  exists h',
    setPointColors (Some pc) indices c h = Return (tt, h')
    /\ h' !! colors = Some (Float32Array (recolour original mask c))
    /\ h' !! originalColors pc = Some (Float32Array original)
    /\ length (recolour original mask c) = length original
    /\ forall i, i * 3 + 2 < length original ->
         (mask !! i = Some 1%Z ->
            recolour original mask c !! (i * 3) = Some (fround (Color.r c))
            /\ recolour original mask c !! (i * 3 + 1) = Some (fround (Color.g c))
            /\ recolour original mask c !! (i * 3 + 2) = Some (fround (Color.b c)))
         /\ (mask !! i = Some 0%Z ->
            recolour original mask c !! (i * 3) = original !! (i * 3)
            /\ recolour original mask c !! (i * 3 + 1) = original !! (i * 3 + 1)
            /\ recolour original mask c !! (i * 3 + 2) = original !! (i * 3 + 2)).
Proof.
  intros Hattr Hne Hcur Horig Hlen Hmask.
  eexists. split; [by eapply setPointColors_run|].
  split; [by apply lookup_insert_eq|].
  split; [by rewrite lookup_insert_ne|].
  split; [apply recolour_length|].
  intros i Hi. split.
  - intros Hone. by apply (recolour_selected original mask c i 1%Z).
  - intros Hzero.
    assert (Hflag : default 0%Z (mask !! i) = 0%Z) by (by rewrite Hzero).
    pose proof (recolour_unselected original mask c i 0 Hflag) as H0.
    rewrite Nat.add_0_r in H0.
    repeat split; [apply H0; lia|apply recolour_unselected; (done || lia)..].
Qed.

Lemma bind_ret {A B} (a : A) (k : A -> M B) (h : heap) :
  bind (ret a) k h = k a h.
Proof. done. Qed.

Lemma bind_assoc {A B C} (m : M A) (k : A -> M B) (k' : B -> M C) (h : heap) :
  bind (bind m k) k' h = bind m (fun a => bind (k a) k') h.
Proof. unfold bind. by destruct (m h) as [[a h']|e]. Qed.

Lemma white_loop_run (h : heap) (colors : loc) (acc : list number)
    (idx : list nat) :
  h !! colors = Some (Float32Array acc) ->
  exists h' acc',
    for_each idx (white_step colors) tt h = Return (tt, h')
    /\ h' !! colors = Some (Float32Array acc')
    /\ forall l, l <> colors -> h' !! l = h !! l.
Proof.
  intros Hacc.
  pose (I := fun (done : list nat) (_ : unit) (h' : heap) =>
    (exists acc', h' !! colors = Some (Float32Array acc'))
    /\ forall l, l <> colors -> h' !! l = h !! l).
  destruct (for_each_inv (white_step colors) I)
    with (idx := idx) (done := @nil nat) (s := tt) (h := h)
    as ([] & h' & Hrun & (acc' & Hacc') & Hframe).
  - intros done i [] h1 ((acc1 & Hacc1) & Hframe). unfold white_step.
    rewrite (bind_Return _ _ _ _ _ (f32_set_run h1 _ _ (i * 3) _ Hacc1)).
    erewrite bind_Return by (apply f32_set_run; apply lookup_insert_eq).
    erewrite f32_set_run by apply lookup_insert_eq.
    eexists tt, _. split; [done|]. split.
    + eexists. by rewrite lookup_insert_eq.
    + intros l Hl. rewrite !lookup_insert_ne by done. by apply Hframe.
  - split; [by exists acc|done].
  - by exists h', acc'.
Qed.

(** What [loadPCD] leaves on the heap: a colour buffer and, in a distinct
    buffer, a copy of it; buffers allocated before are kept. *)
Lemma loadPCD_colors_saved (h : heap) (positions : loc) (colorAttr : option loc)
    (count : nat) :
  (forall c, colorAttr = Some c -> exists cs, h !! c = Some (Float32Array cs)) ->
  exists pc h' colors cs,
    loadPCD_colors positions colorAttr count h = Return (pc, h')
    /\ color (geometry pc) = Some colors
    /\ colors <> originalColors pc
    /\ h' !! colors = Some (Float32Array cs)
    /\ h' !! originalColors pc = Some (Float32Array cs)
    /\ (colorAttr = Some colors \/ (colorAttr = None /\ h !! colors = None)).
Proof.
  intros Hattr. unfold loadPCD_colors.
  assert (Hsave : forall (h1 : heap) (colors : loc) (cs : list number),
    h1 !! colors = Some (Float32Array cs) ->
    exists pc h',
      (let* len := f32_length colors in
       let* original := newFloat32Array len in
       f32_set_from original colors;;
       ret (mkPointCloudData (mkBufferGeometry positions (Some colors)) count
              original)) h1 = Return (pc, h')
      /\ color (geometry pc) = Some colors
      /\ colors <> originalColors pc
      /\ h' !! colors = Some (Float32Array cs)
      /\ h' !! originalColors pc = Some (Float32Array cs)).
  { intros h1 colors cs Hcs.
    rewrite (bind_Return _ _ _ _ _ (f32_length_run h1 _ cs Hcs)).
    unfold newFloat32Array. rewrite (bind_Return _ _ _ _ _ (alloc_run _ h1)).
    set (original := fresh (dom h1)).
    assert (Hne : colors <> original) by (by eapply allocated_not_fresh).
    unfold bind, f32_set_from.
    rewrite lookup_insert_eq, lookup_insert_ne, Hcs by done.
    rewrite length_replicate, Nat.ltb_irrefl.
    rewrite drop_ge, app_nil_r by (by rewrite length_replicate).
    eexists _, _. split; [done|]. simpl. split; [done|]. split; [done|].
    split.
    - by rewrite !lookup_insert_ne.
    - by rewrite lookup_insert_eq. }
  destruct colorAttr as [c|].
  - destruct (Hattr c eq_refl) as (cs & Hcs).
    destruct (Hsave h c cs Hcs) as (pc & h' & Hrun & H1 & H2 & H3 & H4).
    rewrite bind_ret.
    exists pc, h', c, cs. repeat split; auto.
  - unfold newFloat32Array at 1. rewrite !bind_assoc.
    rewrite (bind_Return _ _ _ _ _ (alloc_run _ h)).
    set (colors := fresh (dom h)).
    destruct (white_loop_run (<[colors := Float32Array (replicate (count * 3) zero)]> h)
                colors (replicate (count * 3) zero) (seq 0 count))
      as (h1 & cs & Hloop & Hcs & _).
    { apply lookup_insert_eq. }
    rewrite bind_assoc, (bind_Return _ _ _ _ _ Hloop), bind_ret.
    destruct (Hsave h1 colors cs Hcs) as (pc & h' & Hrun & H1 & H2 & H3 & H4).
    exists pc, h', colors, cs. repeat split; auto.
    right. split; [done|]. apply fresh_not_allocated.
Qed.

(** ** Concrete runs *)

Example square_containment :
  map (fun p => isPointInPolygon p square) [pt 5 5; pt 15 15; pt (-1) 5]
  = [true; false; false].
Proof. by vm_compute. Qed.

Example square_mask :
  returned_mask (batchPointsInPolygon 1%positive square sample_heap)
  = Some [1; 0; 0]%Z.
Proof. by vm_compute. Qed.

Example sample_projection :
  returned_screen
    (@projectPointsToScreen three_js 1%positive sample_camera
       (of_Z 800) (of_Z 600) position_heap)
  = Some [of_Z 400; of_Z 300; of_Z 600; of_Z 225; neg_Infinity; neg_Infinity].
Proof. by vm_compute. Qed.

(** [NaN] is outside the order: a vertex with a [NaN] coordinate is skipped
    by [getPolygonBounds], and the bounds test lets the point [(NaN, NaN)]
    through.  This is why the statements about the box speak of numeric
    coordinates. *)
Example getPolygonBounds_skips_NaN :
  getPolygonBounds [mkPoint2D NaN (of_Z 3)]
  = mkBounds Infinity neg_Infinity (of_Z 3) (of_Z 3)
  /\ outside_bounds empty_bounds NaN NaN = false.
Proof. by vm_compute. Qed.

(** C1, counterexample: on the point [(1, 0.5)] and the square of width
    [1 + 2^-30] the point is inside the bounding box and accepted by
    [isPointInPolygon], yet the classifier returns the mask [[0]]: it tests
    the vertices rounded to single precision, whose right side lies at
    [x = 1].  And the prefilter does reject points that [isPointInPolygon]
    accepts: the point [(2, 7)] against the triangle [sliver], and, with
    single-precision coordinates throughout, the point [(0.5, 2^-100)]
    against the triangle [needle], where the rounding of the edge intercept
    decides. *)
Lemma batchPointsInPolygon_disagrees :
  (returned_mask (batchPointsInPolygon 1%positive wide_square wide_heap)
   = Some [0%Z]
   /\ ~ mask_agrees_with_predicate wide_samples wide_square [0%Z])
  /\ ~ prefilter_conservative sliver
  /\ (Forall single_precision needle /\ single_precision needle_point
      /\ ~ prefilter_conservative needle).
Proof.
  split; [split|split; [|split; [|split]]].
  - by vm_compute.
  - intros Hagree. destruct (Hagree 0) as [_ Hsel]; [vm_compute; lia|].
    assert (Hone : [0%Z] !! 0 = Some 1%Z) by (apply Hsel; by vm_compute).
    discriminate Hone.
  - intros Hcons. specialize (Hcons (of_Z 2) (of_Z 7)).
    assert (Hout : outside_bounds (getPolygonBounds sliver) (of_Z 2) (of_Z 7)
                   = false) by (apply Hcons; by vm_compute).
    vm_compute in Hout. discriminate Hout.
  - repeat constructor.
  - done.
  - intros Hcons. specialize (Hcons (x needle_point) (y needle_point)).
    assert (Hout : outside_bounds (getPolygonBounds needle)
                     (x needle_point) (y needle_point) = false)
      by (apply Hcons; by vm_compute).
    vm_compute in Hout. discriminate Hout.
Qed.

(** ** The theorems at concrete inputs *)

Lemma square_single_precision : Forall single_precision square.
Proof. repeat constructor. Defined.

Lemma batchPointsInPolygon_mask_witness :
  exists results mask h',
    batchPointsInPolygon 1%positive square sample_heap = Return (results, h')
    /\ h' !! results = Some (Uint8Array mask)
    /\ length mask = 3
    /\ mask !! 0 = Some 1%Z /\ mask !! 1 = Some 0%Z /\ mask !! 2 = Some 0%Z.
Proof.
  destruct (batchPointsInPolygon_mask sample_heap 1%positive samples square 3)
    as (results & mask & h' & Hrun & Hmask & Hlen & _ & Hsingle);
    [reflexivity|reflexivity|simpl; lia|].
  exists results, mask, h'.
  split; [exact Hrun|]. split; [exact Hmask|]. split; [exact Hlen|].
  split; [|split].
  - exact (Hsingle square_single_precision 0 ltac:(lia)).
  - exact (Hsingle square_single_precision 1 ltac:(lia)).
  - exact (Hsingle square_single_precision 2 ltac:(lia)).
Defined.

Lemma degenerate_polygon_witness :
  isPointInPolygon (pt 5 5) [pt 0 0; pt 10 0] = false
  /\ batchPointsInPolygon 1%positive [pt 0 0; pt 10 0] sample_heap
     = Return (fresh (dom sample_heap),
               <[fresh (dom sample_heap) := Uint8Array (replicate 3 0%Z)]>
                 sample_heap).
Proof.
  apply (degenerate_polygon sample_heap 1%positive samples
           [pt 0 0; pt 10 0] (pt 5 5)); [reflexivity|simpl; lia].
Defined.

Lemma w_zero_sentinel_witness :
  exists screen buf h1 results mask h2,
    @projectPointsToScreen three_js 1%positive sample_camera
      (of_Z 800) (of_Z 600) position_heap = Return (screen, h1)
    /\ h1 !! screen = Some (Float32Array buf)
    /\ buf !! 4 = Some neg_Infinity /\ buf !! 5 = Some neg_Infinity
    /\ batchPointsInPolygon screen square h1 = Return (results, h2)
    /\ h2 !! results = Some (Uint8Array mask)
    /\ mask !! 2 = Some 0%Z.
Proof.
  destruct (@w_zero_sentinel three_js position_heap 1%positive
              sample_positions sample_camera (of_Z 800) (of_Z 600))
    as (screen & buf & h1 & Hrun & Hbuf & Hall); [reflexivity|].
  destruct (Hall 2) as (Hsx & Hsy & Hpoly);
    [vm_compute; lia|by vm_compute|].
  destruct (Hpoly square) as (results & mask & h2 & Hbatch & Hmask & Hzero).
  { repeat constructor. }
  by exists screen, buf, h1, results, mask, h2.
Defined.

Lemma projectPointsToScreen_pixels_witness :
  exists screen buf h',
    @projectPointsToScreen three_js 1%positive sample_camera
      (of_Z 800) (of_Z 600) position_heap = Return (screen, h')
    /\ h' !! screen = Some (Float32Array buf)
    /\ length buf = 6
    /\ buf !! 2 = Some (of_Z 600) /\ buf !! 3 = Some (of_Z 225).
Proof.
  destruct (@projectPointsToScreen_pixels three_js position_heap 1%positive
              sample_positions sample_camera (of_Z 800) (of_Z 600) 3)
    as (screen & buf & h' & Hrun & _ & Hbuf & Hlen & Hall);
    [reflexivity|reflexivity|].
  destruct (Hall 1) as [Hsx Hsy]; [lia|by vm_compute|].
  by exists screen, buf, h'.
Defined.

Lemma getPolygonBounds_tightest_witness :
  getPolygonBounds square = mkBounds (of_Z 0) (of_Z 10) (of_Z 0) (of_Z 10)
  /\ forall v, v ∈ square ->
       le (minX (getPolygonBounds square)) (x v) = true
       /\ le (x v) (maxX (getPolygonBounds square)) = true
       /\ le (minY (getPolygonBounds square)) (y v) = true
       /\ le (y v) (maxY (getPolygonBounds square)) = true.
Proof.
  split; [by vm_compute|].
  apply (getPolygonBounds_tightest square). repeat constructor.
Defined.

Lemma batchPointsInPolygon_deterministic_witness :
  exists r1 r2 h1' h2' mask,
    batchPointsInPolygon 1%positive square sample_heap = Return (r1, h1')
    /\ batchPointsInPolygon 7%positive square
         (<[7%positive := Float32Array samples]> position_heap)
       = Return (r2, h2')
    /\ h1' !! r1 = Some (Uint8Array mask)
    /\ h2' !! r2 = Some (Uint8Array mask).
Proof.
  apply (batchPointsInPolygon_deterministic sample_heap _ 1%positive 7%positive
           samples samples square square); reflexivity.
Defined.

Lemma downsampling_witness :
  (exists st',
     mouseMoves dense_moves
       (handleMouseDown canvas_rect (mkMouseEvent (of_Z 100) (of_Z 100))
          (mkLassoSelector false []))
     = Return st'
     /\ pathRef st' = [pt 100 100]
     /\ length (pathRef st') < 4)
  /\ (exists st',
        handleMouseMove canvas_rect (mkMouseEvent (of_Z 104) (of_Z 100))
          (mkLassoSelector true [pt 100 100]) = Return st'
        /\ pathRef st' = [pt 100 100; pt 104 100]).
Proof.
  destruct (downsampling canvas_rect (mkMouseEvent (of_Z 100) (of_Z 100))
              (mkLassoSelector false [])) as (Hmove & _ & Hdense).
  split.
  - destruct (Hdense dense_moves) as (st' & Hrun & Hpath & Hlen); [done| |].
    + intros rect e Hin. apply list_elem_of_In in Hin. simpl in Hin.
      destruct Hin as [Heq|[Heq|[Heq|[]]]]; inversion Heq; by vm_compute.
    + exists st'. split; [exact Hrun|]. split; [exact Hpath|exact Hlen].
  - destruct (Hmove (mkLassoSelector true [pt 100 100]) canvas_rect
                (mkMouseEvent (of_Z 104) (of_Z 100)) (pt 100 100))
      as (st' & Hrun & _ & Happend & _); [reflexivity|reflexivity|].
    exists st'. split; [exact Hrun|]. apply Happend. by vm_compute.
Defined.

Lemma setPointColors_replaces_witness :
  exists h',
    setPointColors (Some sample_cloud) 4%positive SELECTION_COLOR color_heap
    = Return (tt, h')
    /\ h' !! 2%positive
       = Some (Float32Array
                 [of_Z 1; of_Z 1; of_Z 1; dyadic 1 (-1); of_Z 1; dyadic 1 (-1)])
    /\ h' !! 3%positive = Some (Float32Array saved_colors).
Proof.
  destruct (setPointColors_replaces color_heap sample_cloud 2%positive
              4%positive (map (fun _ => dyadic 1 (-1)) saved_colors)
              saved_colors [0; 1]%Z SELECTION_COLOR)
    as (h' & Hrun & Hcol & Horig & _); try reflexivity; [done|].
  exists h'. split; [exact Hrun|]. split; [exact Hcol|exact Horig].
Defined.

Lemma inputs_not_mutated_witness :
  (exists screen buf,
     @projectPointsToScreen three_js 1%positive sample_camera
       (of_Z 800) (of_Z 600) position_heap
     = Return (screen, <[screen := Float32Array buf]> position_heap)
     /\ position_heap !! screen = None
     /\ length buf = 6
     /\ <[screen := Float32Array buf]> position_heap !! 1%positive
        = Some (Float32Array sample_positions))
  /\ (exists results mask g',
        batchPointsInPolygon 1%positive square sample_heap = Return (results, g')
        /\ sample_heap !! results = None
        /\ g' !! results = Some (Uint8Array mask)
        /\ length mask = 3
        /\ g' !! 1%positive = Some (Float32Array samples)
        /\ forall l b, sample_heap !! l = Some b -> g' !! l = Some b).
Proof.
  apply (@inputs_not_mutated three_js position_heap 1%positive sample_positions
           sample_camera (of_Z 800) (of_Z 600) sample_heap 1%positive samples
           square); reflexivity.
Defined.

(** * Further properties of the code *)

(** ** [NaN] in the arithmetic *)

Lemma lt_NaN_l (a : number) : lt NaN a = false.
Proof. done. Qed.

Lemma lt_NaN_r (a : number) : lt a NaN = false.
Proof. by destruct a. Qed.

Lemma lt_is_nan_l (a b : number) : is_nan a = true -> lt a b = false.
Proof. destruct a; try done. Qed.

Lemma lt_is_nan_r (a b : number) : is_nan b = true -> lt a b = false.
Proof. destruct b; try done. intros _. apply lt_NaN_r. Qed.

Lemma lt_irrefl (a : number) : lt a a = false.
Proof.
  unfold lt, SFltb. destruct a as [[]|[]| |[] m e]; simpl; try done;
    rewrite Z.compare_refl;
    change (Pos.compare_cont Eq m m) with (Pos.compare m m);
    by rewrite Pos.compare_refl.
Qed.

Lemma mul_NaN_r (a : number) : mul a NaN = NaN.
Proof. by destruct a. Qed.

Lemma add_NaN_l (a : number) : add NaN a = NaN.
Proof. done. Qed.

Lemma add_NaN_r (a : number) : add a NaN = NaN.
Proof. by destruct a. Qed.

Lemma row_NaN (e : nat -> number) (a b c d : nat) (px py pz : number) :
  is_nan px = true \/ is_nan py = true \/ is_nan pz = true ->
  row e a b c d px py pz = NaN.
Proof.
  unfold row. intros [Hp|[Hp|Hp]].
  - destruct px; try done. by rewrite mul_NaN_r, !add_NaN_l.
  - destruct py; try done. by rewrite mul_NaN_r, add_NaN_r, !add_NaN_l.
  - destruct pz; try done. by rewrite mul_NaN_r, add_NaN_r, !add_NaN_l.
Qed.

Lemma project_point_NaN (e : nat -> number) (hw hh px py pz : number) :
  is_nan px = true \/ is_nan py = true \/ is_nan pz = true ->
  project_point e hw hh px py pz = (NaN, NaN).
Proof.
  intros Hp. unfold project_point. rewrite !(row_NaN e _ _ _ _ _ _ _ Hp).
  done.
Qed.

(** ** The geometric predicate on degenerate configurations *)

Lemma crosses_NaN (px py xi yi xj yj : number) :
  is_nan px = true \/ is_nan py = true -> crosses px py xi yi xj yj = false.
Proof.
  unfold crosses, gt. intros [Hp|Hp].
  - rewrite (lt_is_nan_l px _ Hp). apply andb_false_r.
  - by rewrite !(lt_is_nan_l py _ Hp).
Qed.

Lemma parity_all_false (cs : list bool) :
  Forall (fun c => c = false) cs -> parity cs = false.
Proof. induction 1 as [|c cs -> _ IH]; [done|]. simpl. by rewrite IH. Qed.

Lemma adjacent_elem (prev : Point2D) (l : list Point2D) (e : Point2D * Point2D) :
  e ∈ adjacent prev l -> fst e ∈ l /\ (snd e = prev \/ snd e ∈ l).
Proof.
  revert prev. induction l as [|v l IH]; intros prev He; simpl in He.
  - by apply elem_of_nil in He.
  - apply elem_of_cons in He as [->|He]; simpl.
    + split; [left|by left].
    + destruct (IH v He) as [Hfst Hsnd]. split; [by right|].
      right. destruct Hsnd as [->|Hsnd]; [left|by right].
Qed.

Lemma edges_elem (polygon : list Point2D) (e : Point2D * Point2D) :
  e ∈ edges polygon -> fst e ∈ polygon /\ snd e ∈ polygon.
Proof.
  intros He. pose proof (elem_of_not_nil _ _ He) as Hne.
  unfold edges in He. apply adjacent_elem in He as [Hfst Hsnd].
  split; [done|]. destruct Hsnd as [->|Hsnd]; [|done].
  rewrite vertex_last. destruct polygon as [|v polygon] using rev_ind.
  - by apply elem_of_nil in Hfst.
  - rewrite last_last. apply elem_of_app. right. left.
Qed.

(** X1: The predicate rejects every point that has a [NaN] coordinate, and every
    point that has all the vertices on one side of its horizontal line
    (none of them above it, or all of them). *)
Theorem isPointInPolygon_rejects (point : Point2D) (polygon : list Point2D)
    (side : bool) :
  is_nan (x point) = true \/ is_nan (y point) = true
  \/ same_side (y point) side polygon ->
  isPointInPolygon point polygon = false.
Proof.
  intros Hcase.
  destruct (Nat.lt_ge_cases (length polygon) 3) as [Hlt|Hge].
  { unfold isPointInPolygon.
    by destruct (Nat.ltb_spec (length polygon) 3); [|lia]. }
  rewrite isPointInPolygon_parity by done.
  apply parity_all_false, Forall_map, Forall_forall. intros e He.
  unfold edge_crosses.
  destruct Hcase as [Hp|[Hp|Hside]]; [apply crosses_NaN; auto..|].
  apply edges_elem in He as [Hfst Hsnd].
  unfold same_side in Hside. rewrite Forall_forall in Hside.
  unfold crosses. by rewrite (Hside _ Hfst), (Hside _ Hsnd), xorb_nilpotent.
Qed.

Lemma edge_crosses_loop (point v : Point2D) : edge_crosses point (v, v) = false.
Proof. unfold edge_crosses, crosses. simpl. by rewrite xorb_nilpotent. Qed.

Lemma last_cons_cons {A} (a b : A) (l : list A) (d : A) :
  List.last (a :: b :: l) d = List.last (b :: l) d.
Proof. done. Qed.

Lemma isPointInPolygon_dup (point v : Point2D) (l1 l2 : list Point2D) :
  3 <= length (l1 ++ v :: l2) ->
  isPointInPolygon point (l1 ++ v :: v :: l2)
  = isPointInPolygon point (l1 ++ v :: l2).
Proof.
  intros Hn.
  rewrite !isPointInPolygon_parity
    by (rewrite length_app in *; simpl in *; lia).
  unfold edges. rewrite !vertex_last, !adjacent_app, !last_app_gen.
  rewrite last_cons_cons. cbn [adjacent].
  rewrite !map_app. cbn [map]. rewrite !parity_app. cbn [parity fold_right].
  by rewrite edge_crosses_loop.
Qed.

(** X2: Repeating a vertex, any number of times, does not change the verdict:
    the zero-length edges between the copies are never crossed.  (Below 3
    vertices the predicate is false by policy, so the polygon without the
    copies needs 3.) *)
Theorem isPointInPolygon_repeated_vertex (point v : Point2D)
    (l1 l2 : list Point2D) (copies : nat) :
  3 <= length (l1 ++ v :: l2) ->
  isPointInPolygon point (l1 ++ replicate copies v ++ v :: l2)
  = isPointInPolygon point (l1 ++ v :: l2).
Proof.
  intros Hn. induction copies as [|copies IH]; [done|].
  cbn [replicate app]. rewrite <- IH.
  destruct copies as [|copies].
  - by apply isPointInPolygon_dup.
  - cbn [replicate app].
    apply (isPointInPolygon_dup point v l1 (replicate copies v ++ v :: l2)).
    rewrite length_app in Hn |- *. cbn [length] in *.
    rewrite length_app, length_replicate. cbn [length]. lia.
Qed.

(** X3: A polygon may be given open or closed: repeating the first vertex at
    the end of a polygon with at least 3 vertices does not change the
    verdict, since the loop closes the polygon itself. *)
Theorem isPointInPolygon_closed (point first : Point2D) (rest : list Point2D) :
  3 <= length (first :: rest) ->
  isPointInPolygon point (first :: rest ++ [first])
  = isPointInPolygon point (first :: rest).
Proof.
  intros Hn.
  change (first :: rest ++ [first]) with ((first :: rest) ++ [first]).
  rewrite isPointInPolygon_app_comm.
  by apply (isPointInPolygon_dup point first [] rest).
Qed.

(** ** The bounding box against its own vertices *)

Lemma running_min_not_below (vs : list number) (m0 v : number) :
  v ∈ vs -> lt v (fold_left running_min vs m0) = false.
Proof.
  induction vs as [|u vs IH] using rev_ind; intros Hv.
  - by apply elem_of_nil in Hv.
  - rewrite fold_left_app. simpl.
    set (m := fold_left running_min vs m0) in *. unfold running_min.
    apply elem_of_app in Hv as [Hv|Hv].
    + specialize (IH Hv). destruct (lt u m) eqn:Hlt; [|done].
      by eapply lt_below_running.
    + apply list_elem_of_singleton in Hv as ->.
      destruct (lt u m) eqn:Hlt; [apply lt_irrefl|done].
Qed.

Lemma running_max_not_above (vs : list number) (m0 v : number) :
  v ∈ vs -> gt v (fold_left running_max vs m0) = false.
Proof.
  unfold gt. induction vs as [|u vs IH] using rev_ind; intros Hv.
  - by apply elem_of_nil in Hv.
  - rewrite fold_left_app. simpl.
    set (m := fold_left running_max vs m0) in *. unfold running_max, gt.
    apply elem_of_app in Hv as [Hv|Hv].
    + specialize (IH Hv). destruct (lt m u) eqn:Hlt; [|done].
      by eapply lt_above_running.
    + apply list_elem_of_singleton in Hv as ->.
      destruct (lt m u) eqn:Hlt; [apply lt_irrefl|done].
Qed.

(** X4: The prefilter never rejects a vertex of the polygon it was computed
    from, whatever the coordinates are ([NaN] and infinities included). *)
Theorem vertices_pass_bounds_test (polygon : list Point2D) (v : Point2D) :
  v ∈ polygon -> rejected_by (getPolygonBounds polygon) v = false.
Proof.
  intros Hv. unfold rejected_by, outside_bounds, getPolygonBounds.
  rewrite getPolygonBounds_fold. simpl.
  assert (Hx : x v ∈ map x polygon) by (by apply list_elem_of_fmap_2).
  assert (Hy : y v ∈ map y polygon) by (by apply list_elem_of_fmap_2).
  rewrite (running_min_not_below _ _ _ Hx), (running_min_not_below _ _ _ Hy).
  by rewrite (running_max_not_above _ _ _ Hx), (running_max_not_above _ _ _ Hy).
Qed.

(** ** The life of a lasso gesture *)

Lemma well_spaced_snoc (path : list Point2D) (lastPoint p : Point2D) :
  well_spaced path -> last path = Some lastPoint ->
  lt (squared_distance p lastPoint) sixteen = false ->
  well_spaced (path ++ [p]).
Proof.
  induction path as [|a path IH]; intros Hspaced Hlast Hfar; [done|].
  destruct path as [|b path].
  - simpl in Hlast. by inversion Hlast; subst.
  - destruct Hspaced as [Hab Hrest]. split; [done|].
    apply IH; done.
Qed.

Lemma mouseMoves_gesture (moves : list (DOMRect.t * MouseEvent))
    (st : LassoSelector) :
  isDrawing st = true -> pathRef st <> [] -> well_spaced (pathRef st) ->
  exists added,
    mouseMoves moves st = Return (mkLassoSelector true (pathRef st ++ added))
    /\ added `sublist_of` positions_of moves
    /\ well_spaced (pathRef st ++ added).
Proof.
  revert st. induction moves as [|[rect e] moves IH];
    intros st Hdraw Hpath Hspaced.
  - exists []. rewrite app_nil_r. destruct st as [d path]. simpl in *.
    by subst d.
  - destruct (last (pathRef st)) as [lastPoint|] eqn:Hlast;
      [|by apply last_None in Hlast].
    simpl. rewrite (handleMouseMove_drawing rect e st lastPoint Hdraw Hlast).
    destruct (lt _ sixteen) eqn:Hlt.
    + destruct (IH st Hdraw Hpath Hspaced) as (added & Hrun & Hsub & Hsp).
      exists added. split; [done|]. split; [|done].
      by apply sublist_cons.
    + destruct (IH (mkLassoSelector true (pathRef st ++ [pointer rect e])))
        as (added & Hrun & Hsub & Hsp);
        [done|by destruct (pathRef st)|by eapply well_spaced_snoc|].
      simpl in *. rewrite <- app_assoc in Hrun, Hsp.
      exists (pointer rect e :: added). split; [done|]. split; [|done].
      by apply sublist_skip.
Qed.

(** X5: From pointer-down on, no move throws, and the captured path keeps three
    invariants: it starts with the pointer-down position, its other vertices
    are a subsequence of the move positions (so it never has more vertices
    than samples), and consecutive vertices are never closer than the
    threshold. *)
Theorem gesture_invariants (rect0 : DOMRect.t) (e0 : MouseEvent)
    (st0 : LassoSelector) (moves : list (DOMRect.t * MouseEvent)) :
  exists added,
    mouseMoves moves (handleMouseDown rect0 e0 st0)
    = Return (mkLassoSelector true (pointer rect0 e0 :: added))
    /\ added `sublist_of` positions_of moves
    /\ length (pointer rect0 e0 :: added) <= 1 + length moves
    /\ well_spaced (pointer rect0 e0 :: added).
Proof.
  destruct (mouseMoves_gesture moves (handleMouseDown rect0 e0 st0))
    as (added & Hrun & Hsub & Hsp); [done..|].
  exists added. split; [done|]. split; [done|]. split; [|done].
  apply sublist_length in Hsub. unfold positions_of in Hsub.
  rewrite length_map in Hsub. simpl. lia.
Qed.

Lemma mouseMoves_idle (moves : list (DOMRect.t * MouseEvent))
    (st : LassoSelector) :
  isDrawing st = false -> mouseMoves moves st = Return st.
Proof.
  intros Hidle. induction moves as [|[rect e] moves IH]; [done|].
  simpl. unfold handleMouseMove. by rewrite Hidle.
Qed.

(** X6: Releasing the pointer (or leaving the canvas, which does the same)
    always ends the gesture.  A polygon is handed to the selection exactly
    when a gesture was in progress and its path has at least 3 vertices, and
    it is that path; afterwards pointer moves are ignored until the next
    pointer-down. *)
Theorem handleMouseUp_polygon (st : LassoSelector)
    (moves : list (DOMRect.t * MouseEvent)) :
  let st' := fst (handleMouseUp st) in
  let out := snd (handleMouseUp st) in
  isDrawing st' = false
  /\ pathRef st' = pathRef st
  /\ (forall polygon, out = Some polygon <->
        isDrawing st = true /\ 3 <= length (pathRef st) /\ polygon = pathRef st)
  /\ mouseMoves moves st' = Return st'
  /\ handleMouseLeave st = handleMouseUp st.
Proof.
  unfold handleMouseLeave, handleMouseUp.
  destruct st as [[] path]; cbn [isDrawing pathRef negb].
  - destruct (3 <=? length path) eqn:Hle; cbn [fst snd isDrawing pathRef].
    + apply Nat.leb_le in Hle.
      split; [done|]. split; [done|]. split; [|split; [|done]].
      * intros polygon. split; [by intros [= <-]|by intros (_ & _ & ->)].
      * by apply mouseMoves_idle.
    + apply Nat.leb_gt in Hle.
      split; [done|]. split; [done|]. split; [|split; [|done]].
      * intros polygon. split; [done|]. intros (_ & Hge & _). lia.
      * by apply mouseMoves_idle.
  - cbn [fst snd isDrawing pathRef].
    split; [done|]. split; [done|]. split; [|split; [|done]].
    + intros polygon. split; [done|]. by intros (? & _).
    + by apply mouseMoves_idle.
Qed.

(** X7: A click, or a drag that never leaves the 4-pixel neighbourhood of the
    pointer-down position, selects nothing: the gesture ends without a
    polygon. *)
Theorem short_gesture_discarded (rect0 : DOMRect.t) (e0 : MouseEvent)
    (st0 : LassoSelector) (moves : list (DOMRect.t * MouseEvent)) :
  (forall rect e, (rect, e) ∈ moves ->
     lt (squared_distance (pointer rect e) (pointer rect0 e0)) sixteen = true) ->
  exists st',
    mouseMoves moves (handleMouseDown rect0 e0 st0) = Return st'
    /\ handleMouseUp st' = (mkLassoSelector false [pointer rect0 e0], None)
    /\ handleMouseLeave st' = (mkLassoSelector false [pointer rect0 e0], None).
Proof.
  intros Hdense. exists (handleMouseDown rect0 e0 st0).
  split; [|done].
  by apply (mouseMoves_dense moves _ (pointer rect0 e0)).
Qed.

Lemma mouseMoves_sparse (moves : list (DOMRect.t * MouseEvent))
    (st : LassoSelector) (lastPoint : Point2D) :
  isDrawing st = true -> last (pathRef st) = Some lastPoint ->
  well_spaced (lastPoint :: positions_of moves) ->
  mouseMoves moves st
  = Return (mkLassoSelector true (pathRef st ++ positions_of moves)).
Proof.
  revert st lastPoint.
  induction moves as [|[rect e] moves IH]; intros st lastPoint Hdraw Hlast Hsp.
  - simpl. rewrite app_nil_r. destruct st as [d path]. simpl in *. by subst d.
  - destruct Hsp as [Hfar Hrest]. simpl in Hfar.
    simpl. rewrite (handleMouseMove_drawing rect e st lastPoint Hdraw Hlast).
    rewrite Hfar.
    rewrite (IH (mkLassoSelector true (pathRef st ++ [pointer rect e]))
               (pointer rect e)); [|done|apply last_snoc|done].
    simpl. by rewrite <- app_assoc.
Qed.

(** X8: A drag whose samples are each at least the threshold away from the one
    before is captured whole: the path is the pointer-down position followed
    by every move position, and with two or more moves releasing the pointer
    hands exactly that polygon to the selection. *)
Theorem sparse_gesture_kept (rect0 : DOMRect.t) (e0 : MouseEvent)
    (st0 : LassoSelector) (moves : list (DOMRect.t * MouseEvent)) :
  well_spaced (pointer rect0 e0 :: positions_of moves) ->
  let polygon := pointer rect0 e0 :: positions_of moves in
  mouseMoves moves (handleMouseDown rect0 e0 st0)
  = Return (mkLassoSelector true polygon)
  /\ (2 <= length moves ->
      handleMouseUp (mkLassoSelector true polygon)
      = (mkLassoSelector false polygon, Some polygon)).
Proof.
  intros Hsp polygon. split.
  - by rewrite (mouseMoves_sparse moves _ (pointer rect0 e0)).
  - intros Hlen. rewrite handleMouseUp_drawing by done.
    cbn [pathRef]. subst polygon. cbn [length].
    unfold positions_of. rewrite length_map.
    by destruct moves as [|m1 [|m2 moves]]; [simpl in Hlen; lia..|].
Qed.

(** ** Buffers of any length *)

Lemma isPointInPolygon_NaN_point (point : Point2D) (polygon : list Point2D) :
  is_nan (x point) = true \/ is_nan (y point) = true ->
  isPointInPolygon point polygon = false.
Proof.
  intros Hnan.
  destruct (Nat.lt_ge_cases (length polygon) 3) as [Hlt|Hge].
  { unfold isPointInPolygon.
    by destruct (Nat.ltb_spec (length polygon) 3); [|lia]. }
  rewrite isPointInPolygon_parity by done.
  apply parity_all_false, Forall_map, Forall_forall. intros e _.
  by apply crosses_NaN.
Qed.

Lemma classify_flag (bounds : Bounds) (stored : list Point2D) (px py : number) :
  classify bounds stored px py = 0%Z \/ classify bounds stored px py = 1%Z.
Proof.
  unfold classify.
  destruct (outside_bounds bounds px py),
    (isPointInPolygon (mkPoint2D px py) stored); auto.
Qed.

Lemma batch_mask_flags (s : list number) (polygon : list Point2D) :
  Forall (fun v => v = 0%Z \/ v = 1%Z) (batch_mask s polygon).
Proof.
  apply Forall_lookup. intros i v Hv.
  assert (Hi : i < length s / 2).
  { rewrite <- batch_mask_length with (polygon := polygon).
    by eapply lookup_lt_Some. }
  destruct (Nat.lt_ge_cases (length polygon) 3) as [Hlt|Hge].
  - unfold batch_mask in Hv.
    destruct (Nat.ltb_spec (length polygon) 3); [|lia].
    apply lookup_replicate in Hv as [-> _]. by left.
  - rewrite batch_mask_lookup in Hv by done. inversion Hv.
    apply classify_flag.
Qed.

Lemma coordinate_take (s : list number) (n k : nat) :
  k < n -> coordinate (take n s) k = coordinate s k.
Proof. intros Hk. unfold coordinate. by rewrite lookup_take_lt. Qed.

Lemma batch_mask_complete_pairs (s : list number) (polygon : list Point2D) :
  batch_mask s polygon = batch_mask (take (2 * (length s / 2)) s) polygon.
Proof.
  pose proof (Nat.Div0.mul_div_le (length s) 2) as Hle.
  assert (Hlen : length (take (2 * (length s / 2)) s) / 2 = length s / 2).
  { rewrite length_take, Nat.min_l by done.
    rewrite Nat.mul_comm. by apply Nat.div_mul. }
  destruct (Nat.lt_ge_cases (length polygon) 3) as [Hlt|Hge].
  { unfold batch_mask. destruct (Nat.ltb_spec (length polygon) 3); [|lia].
    by rewrite Hlen. }
  apply list_eq. intros i.
  destruct (decide (i < length s / 2)) as [Hi|Hi].
  - rewrite !batch_mask_lookup by (done || by rewrite Hlen).
    by rewrite !coordinate_take by lia.
  - rewrite !lookup_ge_None_2; [done|..];
      rewrite batch_mask_length; [rewrite Hlen|]; lia.
Qed.

(** X9: The classifier accepts a buffer of any length.  It returns a fresh mask
    with one flag per complete coordinate pair, every flag 0 or 1; a trailing
    unpaired coordinate has no influence on the mask. *)
Theorem batchPointsInPolygon_any_length (h : heap) (screenPositions : loc)
    (s : list number) (polygon : list Point2D) :
  h !! screenPositions = Some (Float32Array s) ->
  exists results mask h',
    batchPointsInPolygon screenPositions polygon h = Return (results, h')
    /\ h !! results = None
    /\ h' !! results = Some (Uint8Array mask)
    /\ length mask = length s / 2
    /\ Forall (fun v => v = 0%Z \/ v = 1%Z) mask
    /\ mask = batch_mask (take (2 * (length s / 2)) s) polygon.
Proof.
  intros Hs.
  destruct (batchPointsInPolygon_run h screenPositions s polygon Hs)
    as (h' & Hrun & Hmask & _).
  exists (fresh (dom h)), (batch_mask s polygon), h'.
  split; [done|]. split; [apply fresh_not_allocated|]. split; [done|].
  split; [apply batch_mask_length|]. split; [apply batch_mask_flags|].
  apply batch_mask_complete_pairs.
Qed.

Lemma screen_buffer_slot `{THREE} (ps : list number) (camera : Camera)
    (width height : number) (i : nat) :
  i < turns (length ps) 3 ->
  let sxy := project_point (mvp camera) (div width two) (div height two)
               (coordinate ps (i * 3)) (coordinate ps (i * 3 + 1))
               (coordinate ps (i * 3 + 2)) in
  (i * 2 < length ps * 2 / 3 ->
   screen_buffer ps camera width height !! (i * 2) = Some (fround (fst sxy)))
  /\ (i * 2 + 1 < length ps * 2 / 3 ->
      screen_buffer ps camera width height !! (i * 2 + 1)
      = Some (fround (snd sxy))).
Proof.
  intros Hi sxy. unfold screen_buffer. split; intros Hslot; apply writes_lookup.
  - by rewrite length_replicate.
  - apply project_writes_elem. exists i. split; [done|]. by left.
  - intros v' Hv'. apply project_writes_elem in Hv' as (j & _ & Hcase).
    destruct Hcase as [[Hk ->]|[Hk ->]]; [|lia].
    by replace j with i by lia.
  - by rewrite length_replicate.
  - apply project_writes_elem. exists i. split; [done|]. by right.
  - intros v' Hv'. apply project_writes_elem in Hv' as (j & _ & Hcase).
    destruct Hcase as [[Hk ->]|[Hk ->]]; [lia|].
    by replace j with i by lia.
Qed.

Lemma screen_buffer_complete_points `{THREE} (ps : list number)
    (camera : Camera) (width height : number) (k : nat) :
  k < 2 * (length ps / 3) ->
  screen_buffer ps camera width height !! k
  = screen_buffer (take (3 * (length ps / 3)) ps) camera width height !! k.
Proof.
  intros Hk. pose proof (Nat.Div0.mul_div_le (length ps) 3) as Hle.
  assert (Hlen : length (take (3 * (length ps / 3)) ps) / 3 = length ps / 3).
  { rewrite length_take, Nat.min_l by done.
    rewrite Nat.mul_comm. by apply Nat.div_mul. }
  pose proof (Nat.div_mod_eq k 2) as Hk2.
  pose proof (Nat.mod_upper_bound k 2 ltac:(lia)) as Hr.
  set (i := k / 2) in *.
  assert (Hi : i < length ps / 3) by lia.
  destruct (screen_buffer_lookup ps camera width height i Hi) as [Ha Hb].
  destruct (screen_buffer_lookup (take (3 * (length ps / 3)) ps) camera
              width height i) as [Ha' Hb']; [by rewrite Hlen|].
  rewrite !coordinate_take in Ha', Hb' by lia.
  destruct (k mod 2) as [|[|r]] eqn:Hmod; [| |lia].
  - replace k with (i * 2) by lia. by rewrite Ha, Ha'.
  - replace k with (i * 2 + 1) by lia. by rewrite Hb, Hb'.
Qed.

(** X10: The projector accepts a position buffer of any length [L].  It returns a
    fresh buffer of [floor(2L/3)] slots; the slots of the complete points
    are those of the projection of the buffer cut to a multiple of 3; and
    when two coordinates are left over, the one extra slot holds [NaN]. *)
Theorem projectPointsToScreen_any_length `{THREE} (h : heap) (positions : loc)
    (ps : list number) (camera : Camera) (width height : number) :
  h !! positions = Some (Float32Array ps) ->
  exists screen buf,
    projectPointsToScreen positions camera width height h
    = Return (screen, <[screen := Float32Array buf]> h)
    /\ h !! screen = None
    /\ length buf = length ps * 2 / 3
    /\ (forall k, k < 2 * (length ps / 3) ->
          buf !! k
          = screen_buffer (take (3 * (length ps / 3)) ps) camera width height
              !! k)
    /\ (length ps mod 3 = 2 ->
        length buf = 2 * (length ps / 3) + 1
        /\ buf !! (2 * (length ps / 3)) = Some NaN)
    /\ (length ps mod 3 <> 2 -> length buf = 2 * (length ps / 3)).
Proof.
  intros Hps.
  exists (fresh (dom h)), (screen_buffer ps camera width height).
  split; [by apply projectPointsToScreen_run|].
  split; [apply fresh_not_allocated|].
  split; [apply screen_buffer_length|].
  split; [intros k Hk; by apply screen_buffer_complete_points|].
  pose proof (Nat.div_mod_eq (length ps) 3) as Hdm.
  pose proof (Nat.mod_upper_bound (length ps) 3 ltac:(lia)) as Hr.
  set (q := length ps / 3) in *.
  rewrite screen_buffer_length.
  split.
  - intros Hmod.
    assert (Hout : length ps * 2 / 3 = 2 * q + 1).
    { replace (length ps * 2) with ((2 * q + 1) * 3 + 1) by lia.
      rewrite Nat.div_add_l by lia. simpl. lia. }
    split; [done|].
    assert (Hturn : q < turns (length ps) 3).
    { unfold turns. replace (length ps + (3 - 1)) with ((q + 1) * 3 + 1) by lia.
      rewrite Nat.div_add_l by lia. simpl. lia. }
    destruct (screen_buffer_slot ps camera width height q Hturn) as [Hslot _].
    replace (2 * q) with (q * 2) by lia. rewrite Hslot by lia.
    rewrite project_point_NaN; [done|].
    right. right. unfold coordinate. by rewrite lookup_ge_None_2 by lia.
  - intros Hmod.
    destruct (length ps mod 3) as [|[|[|r]]] eqn:Hm; [| |done|lia].
    + replace (length ps * 2) with ((2 * q) * 3) by lia.
      by rewrite Nat.div_mul.
    + replace (length ps * 2) with ((2 * q) * 3 + 2) by lia.
      rewrite Nat.div_add_l by lia. simpl. lia.
Qed.

(** X11: A point with a [NaN] coordinate (an invalid point of the cloud) projects
    to [(NaN, NaN)], and the classifier, run on the projected buffer, never
    selects it, whatever the polygon and the camera are. *)
Theorem nan_point_never_selected `{THREE} (h : heap) (positions : loc)
    (ps : list number) (camera : Camera) (width height : number) (i : nat)
    (polygon : list Point2D) :
  h !! positions = Some (Float32Array ps) ->
  i < length ps / 3 ->
  is_nan (coordinate ps (i * 3)) = true
  \/ is_nan (coordinate ps (i * 3 + 1)) = true
  \/ is_nan (coordinate ps (i * 3 + 2)) = true ->
  exists screen buf h1 results mask h2,
    projectPointsToScreen positions camera width height h = Return (screen, h1)
    /\ h1 !! screen = Some (Float32Array buf)
    /\ buf !! (i * 2) = Some NaN /\ buf !! (i * 2 + 1) = Some NaN
    /\ batchPointsInPolygon screen polygon h1 = Return (results, h2)
    /\ h2 !! results = Some (Uint8Array mask)
    /\ mask !! i = Some 0%Z.
Proof.
  intros Hps Hi Hnan.
  destruct (screen_buffer_lookup ps camera width height i Hi) as [Hsx Hsy].
  rewrite (project_point_NaN _ _ _ _ _ _ Hnan) in Hsx, Hsy.
  simpl in Hsx, Hsy.
  set (h1 := <[fresh (dom h) := Float32Array (screen_buffer ps camera width height)]> h).
  destruct (batchPointsInPolygon_run h1 (fresh (dom h))
              (screen_buffer ps camera width height) polygon)
    as (h2 & Hrun & Hmask & _); [apply lookup_insert_eq|].
  exists (fresh (dom h)), (screen_buffer ps camera width height), h1,
    (fresh (dom h1)), (batch_mask (screen_buffer ps camera width height) polygon), h2.
  split; [by apply projectPointsToScreen_run|].
  split; [apply lookup_insert_eq|].
  split; [done|]. split; [done|]. split; [done|]. split; [done|].
  pose proof (point_slots _ _ Hi) as Hslots.
  assert (Hmi : i < length (screen_buffer ps camera width height) / 2).
  { rewrite screen_buffer_length.
    apply (Nat.lt_le_trans _ (i + 1)); [lia|].
    apply Nat.div_le_lower_bound; lia. }
  destruct (Nat.lt_ge_cases (length polygon) 3) as [Hlt|Hge].
  - unfold batch_mask. destruct (Nat.ltb_spec (length polygon) 3); [|lia].
    by apply lookup_replicate_2.
  - rewrite batch_mask_lookup by done. f_equal.
    unfold classify, coordinate. rewrite Hsx, Hsy. simpl.
    rewrite isPointInPolygon_NaN_point by (by left).
    by destruct (outside_bounds _ _ _).
Qed.

(** ** Counting the selection *)

Lemma count_flags_snoc (mask : list Z) (v : Z) :
  count_flags (mask ++ [v])
  = if (v =? 0)%Z then count_flags mask else S (count_flags mask).
Proof.
  unfold count_flags. rewrite filter_app, length_app.
  destruct (Z.eqb_spec v 0) as [->|Hv].
  - rewrite filter_cons_False by (by intros ?). simpl. lia.
  - rewrite filter_cons_True by done. simpl. lia.
Qed.

Lemma count_loop (mask : list Z) (n : nat) :
  n <= length mask ->
  fold_left (fun c i => if (default 0%Z (mask !! i) =? 0)%Z then c else S c)
    (seq 0 n) 0
  = count_flags (take n mask).
Proof.
  induction n as [|n IH]; intros Hn.
  - by rewrite take_0.
  - rewrite seq_S, fold_left_app, IH by lia. simpl.
    destruct (lookup_lt_is_Some_2 mask n ltac:(lia)) as [v Hv].
    rewrite (take_S_r _ _ _ Hv), count_flags_snoc. by rewrite Hv.
Qed.

Lemma countSelected_run (h : heap) (selectedIndices : loc) (mask : list Z) :
  h !! selectedIndices = Some (Uint8Array mask) ->
  countSelected selectedIndices h = Return (count_flags mask, h).
Proof.
  intros Hmask. unfold countSelected.
  rewrite (bind_Return _ _ _ _ _ (u8_length_run h _ mask Hmask)).
  rewrite (for_each_pure _
             (fun c i => if (default 0%Z (mask !! i) =? 0)%Z then c else S c)).
  - by rewrite count_loop, firstn_all by done.
  - intros i c. unfold count_step.
    by rewrite (bind_Return _ _ _ _ _ (u8_get_run h _ mask i Hmask)).
Qed.

(** X12: The counting loop of the orchestrator returns the number of flags that
    are set and leaves the heap as it was; the count never exceeds the number
    of points, and on a mask returned by the classifier for a polygon with
    fewer than 3 vertices it is 0. *)
Theorem countSelected_counts (h : heap) (selectedIndices : loc) (mask : list Z) :
  h !! selectedIndices = Some (Uint8Array mask) ->
  countSelected selectedIndices h = Return (count_flags mask, h)
  /\ count_flags mask <= length mask
  /\ (count_flags mask = 0 <-> Forall (fun v => v = 0%Z) mask)
  /\ forall s polygon, length polygon < 3 -> mask = batch_mask s polygon ->
       count_flags mask = 0.
Proof.
  intros Hmask. split; [by apply countSelected_run|].
  assert (Hzero : count_flags mask = 0 <-> Forall (fun v => v = 0%Z) mask).
  { unfold count_flags. rewrite length_zero_iff_nil. split.
    - intros Hnil. apply Forall_forall. intros v Hv.
      destruct (decide (v = 0%Z)) as [|Hne]; [done|].
      assert (Hin : v ∈ filter (fun v => v <> 0%Z) mask)
        by (by apply list_elem_of_filter).
      rewrite Hnil in Hin. by apply elem_of_nil in Hin.
    - intros Hall. clear Hmask.
      induction Hall as [|v mask' -> _ IH]; [done|].
      rewrite filter_cons_False; [exact IH|]. intros Hne. by apply Hne. }
  split; [apply length_filter|]. split; [done|].
  intros s polygon Hlt ->. apply Hzero. unfold batch_mask.
  destruct (Nat.ltb_spec (length polygon) 3); [|lia].
  apply Forall_replicate. done.
Qed.

(** ** Restoring the colours *)

Lemma resetColors_run (h : heap) (pc : PointCloudData) (colors : loc)
    (current original : list number) :
  cloud_loaded h pc colors current original ->
  resetColors (Some pc) h = Return (tt, <[colors := Float32Array original]> h).
Proof.
  intros (Hattr & Hne & Hcur & Horig & Hlen).
  unfold resetColors, f32_set_from. rewrite Hattr, Hcur, Horig.
  destruct (Nat.ltb_spec (length current) (length original)); [lia|].
  by rewrite <- Hlen, drop_all, app_nil_r.
Qed.

Lemma recolour_no_flags (original : list number) (mask : list Z) (c : Color.t) :
  Forall (fun v => v = 0%Z) mask -> recolour original mask c = original.
Proof.
  intros Hzero. unfold recolour.
  assert (Hnil : forall idx, flat_map (color_writes mask c) idx = []).
  { induction idx as [|i idx IH]; [done|]. simpl. rewrite IH, app_nil_r.
    unfold color_writes. destruct (mask !! i) as [v|] eqn:Hv; [|done].
    simpl. rewrite Forall_forall in Hzero.
    by rewrite (Hzero v) by (by eapply list_elem_of_lookup_2). }
  by rewrite Hnil.
Qed.

(** X13: On a loaded cloud [resetColors] makes the colour buffer equal to the
    saved colours and touches nothing else.  It undoes any [setPointColors],
    and [setPointColors] with a mask that flags no point does the same as
    [resetColors]. *)
Theorem resetColors_restores (h : heap) (pc : PointCloudData)
    (colors indices : loc) (current original : list number) (mask : list Z)
    (c : Color.t) :
  cloud_loaded h pc colors current original ->
  h !! indices = Some (Uint8Array mask) ->
  resetColors (Some pc) h = Return (tt, <[colors := Float32Array original]> h)
  /\ (exists h1,
        setPointColors (Some pc) indices c h = Return (tt, h1)
        /\ resetColors (Some pc) h1
           = Return (tt, <[colors := Float32Array original]> h))
  /\ (Forall (fun v => v = 0%Z) mask ->
      setPointColors (Some pc) indices c h = resetColors (Some pc) h).
Proof.
  intros Hcloud Hmask. pose proof Hcloud as (Hattr & Hne & Hcur & Horig & Hlen).
  split; [by eapply resetColors_run|]. split.
  - eexists. split; [by eapply setPointColors_run|].
    erewrite resetColors_run.
    + by rewrite insert_insert_eq.
    + split; [done|]. split; [done|]. split; [apply lookup_insert_eq|].
      split; [by rewrite lookup_insert_ne|]. apply recolour_length.
  - intros Hzero.
    rewrite (setPointColors_run h pc colors indices current original mask c)
      by done.
    rewrite (resetColors_run h pc colors current original Hcloud).
    by rewrite recolour_no_flags.
Qed.

(** ** Loading the colours *)

Lemma white_loop_exact (h : heap) (colors : loc) (acc : list number)
    (idx : list nat) :
  h !! colors = Some (Float32Array acc) ->
  for_each idx (white_step colors) tt h
  = Return (tt, <[colors := Float32Array (writes (flat_map white_writes idx) acc)]> h).
Proof.
  intros Hacc.
  pose (I := fun (done : list nat) (_ : unit) (h' : heap) =>
    h' = <[colors := Float32Array (writes (flat_map white_writes done) acc)]> h).
  destruct (for_each_inv (white_step colors) I)
    with (idx := idx) (done := @nil nat) (s := tt) (h := h)
    as ([] & h' & Hrun & HI).
  - intros done i [] h1 ->. unfold white_step.
    erewrite bind_Return by (apply f32_set_run; apply lookup_insert_eq).
    erewrite bind_Return by (apply f32_set_run; apply lookup_insert_eq).
    erewrite f32_set_run by apply lookup_insert_eq.
    eexists tt, _. split; [done|]. unfold I.
    rewrite flat_map_app, writes_app. cbn [flat_map]. rewrite app_nil_r.
    by rewrite !insert_insert_eq.
  - unfold I. simpl. by rewrite insert_id.
  - by rewrite Hrun, HI.
Qed.

Lemma white_buffer (count : nat) :
  writes (flat_map white_writes (seq 0 count)) (replicate (count * 3) zero)
  = replicate (count * 3) one.
Proof.
  apply list_eq. intros k.
  destruct (decide (k < count * 3)) as [Hk|Hk].
  - rewrite lookup_replicate_2 by done.
    pose proof (Nat.div_mod_eq k 3) as Hdm.
    pose proof (Nat.mod_upper_bound k 3 ltac:(lia)) as Hr.
    apply writes_lookup.
    + by rewrite length_replicate.
    + apply list_elem_of_In, in_flat_map. set (q := k / 3) in *. exists q.
      split; [apply in_seq; lia|].
      unfold white_writes. change (fround one) with one.
      destruct (k mod 3) as [|[|[|r]]] eqn:Hm; [| | |lia];
        rewrite ?Hm in Hdm; simpl.
      * left. f_equal. lia.
      * right. left. f_equal. lia.
      * right. right. left. f_equal. lia.
    + intros v' Hv'. apply list_elem_of_In, in_flat_map in Hv' as (j & _ & Hin).
      simpl in Hin.
      destruct Hin as [Heq|[Heq|[Heq|[]]]]; by inversion Heq.
  - rewrite !lookup_ge_None_2; [done|..].
    + rewrite length_replicate. lia.
    + rewrite writes_length, length_replicate. lia.
Qed.

Lemma save_colors_run (h : heap) (positions colors : loc) (cs : list number)
    (count : nat) :
  h !! colors = Some (Float32Array cs) ->
  (let* len := f32_length colors in
   let* original := newFloat32Array len in
   f32_set_from original colors;;
   ret (mkPointCloudData (mkBufferGeometry positions (Some colors)) count
          original)) h
  = Return (mkPointCloudData (mkBufferGeometry positions (Some colors)) count
              (fresh (dom h)),
            <[fresh (dom h) := Float32Array cs]> h).
Proof.
  intros Hcs.
  rewrite (bind_Return _ _ _ _ _ (f32_length_run h _ cs Hcs)).
  unfold newFloat32Array. rewrite (bind_Return _ _ _ _ _ (alloc_run _ h)).
  assert (Hne : colors <> fresh (dom h)) by (by eapply allocated_not_fresh).
  unfold bind, f32_set_from, ret.
  rewrite lookup_insert_eq, lookup_insert_ne, Hcs by done.
  rewrite length_replicate, Nat.ltb_irrefl.
  rewrite drop_ge, app_nil_r by (by rewrite length_replicate).
  by rewrite insert_insert_eq.
Qed.

(** X14: What the colour part of [loadPCD] leaves behind.  The colours of the
    file are kept, or every point is painted white when the file has none;
    the saved colours are a copy of the colour buffer in a fresh buffer of
    their own; and no buffer that existed before is changed. *)
Theorem loadPCD_colors_spec (h : heap) (positions : loc)
    (colorAttr : option loc) (count : nat) :
  (forall c, colorAttr = Some c -> exists cs, h !! c = Some (Float32Array cs)) ->
  exists pc h' colors cs,
    loadPCD_colors positions colorAttr count h = Return (pc, h')
    /\ pointCount pc = count
    /\ position (geometry pc) = positions
    /\ cloud_loaded h' pc colors cs cs
    /\ h !! originalColors pc = None
    /\ (forall l b, h !! l = Some b -> h' !! l = Some b)
    /\ (forall c, colorAttr = Some c ->
          colors = c /\ h !! c = Some (Float32Array cs))
    /\ (colorAttr = None ->
        h !! colors = None /\ cs = replicate (count * 3) one).
Proof.
  intros Hattr. unfold loadPCD_colors. destruct colorAttr as [c|].
  - destruct (Hattr c eq_refl) as (cs & Hcs).
    rewrite bind_ret, (save_colors_run h positions c cs count Hcs).
    eexists _, _, c, cs. split; [done|]. simpl.
    assert (Hne : c <> fresh (dom h)) by (by eapply allocated_not_fresh).
    split; [done|]. split; [done|]. split.
    { split; [done|]. split; [done|]. simpl.
      rewrite lookup_insert_ne, lookup_insert_eq by done. done. }
    split; [apply fresh_not_allocated|]. split.
    { intros l b Hl. rewrite lookup_insert_ne; [done|].
      apply not_eq_sym. by eapply allocated_not_fresh. }
    split; [by intros ? [= <-]|done].
  - unfold newFloat32Array at 1. rewrite !bind_assoc.
    rewrite (bind_Return _ _ _ _ _ (alloc_run _ h)).
    set (colors := fresh (dom h)).
    set (h1 := <[colors := Float32Array (replicate (count * 3) zero)]> h).
    rewrite bind_assoc.
    rewrite (bind_Return _ _ _ _ _
               (white_loop_exact h1 colors _ (seq 0 count)
                  (lookup_insert_eq _ _ _))).
    rewrite bind_ret, white_buffer. subst h1. rewrite insert_insert_eq.
    set (white := replicate (count * 3) one).
    set (h2 := <[colors := Float32Array white]> h).
    rewrite (save_colors_run h2 positions colors white count)
      by apply lookup_insert_eq.
    assert (Hne : colors <> fresh (dom h2)).
    { apply (allocated_not_fresh h2 colors (Float32Array white)).
      apply lookup_insert_eq. }
    eexists _, _, colors, white. split; [done|]. simpl.
    split; [done|]. split; [done|]. split.
    { split; [done|]. split; [done|]. simpl.
      rewrite lookup_insert_ne by done. subst h2.
      by rewrite !lookup_insert_eq. }
    split.
    { destruct (h !! fresh (dom h2)) as [b|] eqn:Hb; [|done].
      exfalso. assert (Hb2 : h2 !! fresh (dom h2) = Some b).
      { subst h2. by rewrite lookup_insert_ne by done. }
      by rewrite fresh_not_allocated in Hb2. }
    split.
    { intros l b Hl.
      assert (l <> colors) by (by eapply allocated_not_fresh).
      assert (Hl2 : h2 !! l = Some b)
        by (subst h2; by rewrite lookup_insert_ne).
      rewrite lookup_insert_ne; [done|].
      apply not_eq_sym. by eapply allocated_not_fresh. }
    split; [done|]. intros _. split; [apply fresh_not_allocated|done].
Qed.

(** ** The selection orchestrator *)

(** X15: One lasso selection on a loaded cloud.  The call returns; it reports the
    difference of the two clock readings and the number of flagged points;
    the colour buffer becomes the saved colours with the selection colour on
    the flagged points, whatever it showed before; the position buffer, the
    saved colours and every other buffer that existed before are unchanged;
    and the cloud is again in its loaded state, ready for the next
    selection.  Without a cloud or without a camera nothing happens. *)
Theorem handleSelectionComplete_spec `{THREE} (h : heap) (pc : PointCloudData)
    (colors : loc) (ps current original : list number) (camera : Camera)
    (canvasSize : CanvasSize.t) (startTime endTime : number)
    (polygon : list Point2D) :
  cloud_loaded h pc colors current original ->
  h !! position (geometry pc) = Some (Float32Array ps) ->
  position (geometry pc) <> colors ->
  let mask := selection_mask ps camera canvasSize polygon in
  (exists h',
     handleSelectionComplete (Some pc) (Some camera) canvasSize
       startTime endTime polygon h
     = Return (Some (sub endTime startTime, count_flags mask), h')
     /\ cloud_loaded h' pc colors (recolour original mask SELECTION_COLOR)
          original
     /\ h' !! position (geometry pc) = Some (Float32Array ps)
     /\ forall l b, h !! l = Some b -> l <> colors -> h' !! l = Some b)
  /\ handleSelectionComplete None (Some camera) canvasSize startTime endTime
       polygon h = Return (None, h)
  /\ handleSelectionComplete (Some pc) None canvasSize startTime endTime
       polygon h = Return (None, h).
Proof.
  intros Hcloud Hps Hpc mask.
  pose proof Hcloud as (Hattr & Hne & Hcur & Horig & Hlen).
  split; [|done]. unfold handleSelectionComplete.
  rewrite (bind_Return _ _ _ _ _
             (projectPointsToScreen_run h _ ps camera _ _ Hps)).
  set (screen := fresh (dom h)).
  set (buf := screen_buffer ps camera (CanvasSize.width canvasSize)
                (CanvasSize.height canvasSize)).
  set (h1 := <[screen := Float32Array buf]> h).
  assert (Hh1 : forall l b, h !! l = Some b -> h1 !! l = Some b).
  { intros l b Hl. subst h1. rewrite lookup_insert_ne; [done|].
    apply not_eq_sym. by eapply allocated_not_fresh. }
  destruct (batchPointsInPolygon_run h1 screen buf polygon)
    as (h2 & Hbatch & Hmask & Hframe & _); [apply lookup_insert_eq|].
  rewrite (bind_Return _ _ _ _ _ Hbatch).
  fold (selection_mask ps camera canvasSize polygon) in Hmask. fold mask in Hmask.
  rewrite (bind_Return _ _ _ _ _ (countSelected_run h2 _ mask Hmask)).
  rewrite (bind_Return _ _ _ _ _
             (setPointColors_run h2 pc colors _ current original mask
                SELECTION_COLOR Hattr Hne
                (Hframe _ _ (Hh1 _ _ Hcur)) (Hframe _ _ (Hh1 _ _ Horig))
                Hlen Hmask)).
  eexists. split; [done|]. split; [|split].
  - split; [done|]. split; [done|]. split; [apply lookup_insert_eq|].
    split; [|apply recolour_length].
    rewrite lookup_insert_ne by done. by apply Hframe, Hh1.
  - rewrite lookup_insert_ne by done. by apply Hframe, Hh1.
  - intros l b Hl Hlc. rewrite lookup_insert_ne by done. by apply Hframe, Hh1.
Qed.

(** ** The further properties at concrete inputs *)

Lemma isPointInPolygon_rejects_witness :
  isPointInPolygon (pt 5 20) square = false.
Proof.
  apply (isPointInPolygon_rejects (pt 5 20) square false).
  right. right. repeat constructor.
Defined.

Lemma isPointInPolygon_repeated_vertex_witness :
  isPointInPolygon (pt 5 5)
    ([pt 0 0] ++ replicate 2 (pt 10 0) ++ pt 10 0 :: [pt 10 10; pt 0 10])
  = isPointInPolygon (pt 5 5) ([pt 0 0] ++ pt 10 0 :: [pt 10 10; pt 0 10]).
Proof.
  apply (isPointInPolygon_repeated_vertex (pt 5 5) (pt 10 0) [pt 0 0]
           [pt 10 10; pt 0 10] 2).
  simpl. lia.
Defined.

Lemma isPointInPolygon_closed_witness :
  isPointInPolygon (pt 5 5)
    (pt 0 0 :: [pt 10 0; pt 10 10; pt 0 10] ++ [pt 0 0])
  = isPointInPolygon (pt 5 5) (pt 0 0 :: [pt 10 0; pt 10 10; pt 0 10]).
Proof.
  apply (isPointInPolygon_closed (pt 5 5) (pt 0 0)
           [pt 10 0; pt 10 10; pt 0 10]).
  simpl. lia.
Defined.

Lemma vertices_pass_bounds_test_witness :
  rejected_by (getPolygonBounds broken_polygon) (mkPoint2D NaN (of_Z 3)) = false
  /\ rejected_by (getPolygonBounds square) (pt 10 10) = false.
Proof.
  split.
  - apply (vertices_pass_bounds_test broken_polygon). left.
  - apply (vertices_pass_bounds_test square). repeat constructor.
Defined.

Lemma short_gesture_discarded_witness :
  exists st',
    mouseMoves dense_moves
      (handleMouseDown canvas_rect (mkMouseEvent (of_Z 100) (of_Z 100))
         (mkLassoSelector false []))
    = Return st'
    /\ handleMouseUp st' = (mkLassoSelector false [pt 100 100], None)
    /\ handleMouseLeave st' = (mkLassoSelector false [pt 100 100], None).
Proof.
  apply (short_gesture_discarded canvas_rect
           (mkMouseEvent (of_Z 100) (of_Z 100)) (mkLassoSelector false [])
           dense_moves).
  intros rect e Hin. apply list_elem_of_In in Hin. simpl in Hin.
  destruct Hin as [Heq|[Heq|[Heq|[]]]]; inversion Heq; by vm_compute.
Defined.

Lemma batchPointsInPolygon_any_length_witness :
  exists results mask h',
    batchPointsInPolygon 1%positive square odd_heap = Return (results, h')
    /\ odd_heap !! results = None
    /\ h' !! results = Some (Uint8Array mask)
    /\ length mask = 3
    /\ Forall (fun v => v = 0%Z \/ v = 1%Z) mask
    /\ mask = batch_mask samples square.
Proof.
  apply (batchPointsInPolygon_any_length odd_heap 1%positive
           (samples ++ [of_Z 9]) square).
  reflexivity.
Defined.

Lemma projectPointsToScreen_any_length_witness :
  exists screen buf,
    @projectPointsToScreen three_js 1%positive sample_camera
      (of_Z 800) (of_Z 600) ragged_heap
    = Return (screen, <[screen := Float32Array buf]> ragged_heap)
    /\ length buf = 3
    /\ buf !! 0 = Some (of_Z 400) /\ buf !! 1 = Some (of_Z 300)
    /\ buf !! 2 = Some NaN.
Proof.
  destruct (@projectPointsToScreen_any_length three_js ragged_heap 1%positive
              ragged_positions sample_camera (of_Z 800) (of_Z 600))
    as (screen & buf & Hrun & _ & Hlen & Hcomplete & Hextra & _);
    [reflexivity|].
  exists screen, buf. split; [exact Hrun|]. split; [exact Hlen|].
  destruct (Hextra eq_refl) as [_ Hnan].
  split; [|split; [|exact Hnan]].
  - rewrite (Hcomplete 0) by (vm_compute; lia). by vm_compute.
  - rewrite (Hcomplete 1) by (vm_compute; lia). by vm_compute.
Defined.

Lemma nan_point_never_selected_witness :
  exists screen buf h1 results mask h2,
    @projectPointsToScreen three_js 1%positive sample_camera
      (of_Z 800) (of_Z 600) invalid_heap = Return (screen, h1)
    /\ h1 !! screen = Some (Float32Array buf)
    /\ buf !! 0 = Some NaN /\ buf !! 1 = Some NaN
    /\ batchPointsInPolygon screen centre_lasso h1 = Return (results, h2)
    /\ h2 !! results = Some (Uint8Array mask)
    /\ mask !! 0 = Some 0%Z.
Proof.
  apply (@nan_point_never_selected three_js invalid_heap 1%positive
           invalid_positions sample_camera (of_Z 800) (of_Z 600) 0
           centre_lasso); [reflexivity|vm_compute; lia|by left].
Defined.

Lemma countSelected_counts_witness :
  countSelected 4%positive color_heap = Return (1, color_heap).
Proof.
  apply (countSelected_counts color_heap 4%positive [0; 1]%Z). reflexivity.
Defined.

Lemma sample_cloud_loaded :
  cloud_loaded color_heap sample_cloud 2%positive
    (map (fun _ => dyadic 1 (-1)) saved_colors) saved_colors.
Proof. repeat split; done. Defined.

Lemma resetColors_restores_witness :
  resetColors (Some sample_cloud) color_heap
  = Return (tt, <[2%positive := Float32Array saved_colors]> color_heap)
  /\ exists h1,
       setPointColors (Some sample_cloud) 4%positive SELECTION_COLOR color_heap
       = Return (tt, h1)
       /\ resetColors (Some sample_cloud) h1
          = Return (tt, <[2%positive := Float32Array saved_colors]> color_heap).
Proof.
  destruct (resetColors_restores color_heap sample_cloud 2%positive 4%positive
              (map (fun _ => dyadic 1 (-1)) saved_colors) saved_colors
              [0; 1]%Z SELECTION_COLOR sample_cloud_loaded eq_refl)
    as (Hreset & Hundo & _).
  split; [exact Hreset|exact Hundo].
Defined.

Lemma loadPCD_colors_spec_witness :
  exists pc h' colors,
    loadPCD_colors 1%positive None 3 position_heap = Return (pc, h')
    /\ pointCount pc = 3
    /\ cloud_loaded h' pc colors (replicate 9 one) (replicate 9 one)
    /\ h' !! 1%positive = Some (Float32Array sample_positions).
Proof.
  destruct (loadPCD_colors_spec position_heap 1%positive None 3)
    as (pc & h' & colors & cs & Hrun & Hcount & _ & Hcloud & _ & Hframe & _
        & Hwhite); [by intros c [=]|].
  destruct (Hwhite eq_refl) as [_ ->].
  exists pc, h', colors. split; [exact Hrun|]. split; [exact Hcount|].
  split; [exact Hcloud|]. by apply Hframe.
Defined.

Lemma selection_cloud_loaded :
  cloud_loaded selection_heap selection_cloud 2%positive
    selection_shown selection_saved.
Proof. repeat split; done. Defined.

Lemma handleSelectionComplete_spec_witness :
  exists h',
    @handleSelectionComplete three_js (Some selection_cloud)
      (Some sample_camera) sample_canvas (of_Z 1000) (of_Z 1012) centre_lasso
      selection_heap
    = Return (Some (of_Z 12, 1), h')
    /\ h' !! 2%positive
       = Some (Float32Array
                 [dyadic 1 (-1); of_Z 1; dyadic 1 (-1);
                  of_Z 0; of_Z 0; of_Z 0;  of_Z 1; of_Z 1; of_Z 1])
    /\ h' !! 3%positive = Some (Float32Array selection_saved)
    /\ h' !! 1%positive = Some (Float32Array sample_positions).
Proof.
  destruct (@handleSelectionComplete_spec three_js selection_heap
              selection_cloud 2%positive sample_positions selection_shown
              selection_saved sample_camera sample_canvas (of_Z 1000)
              (of_Z 1012) centre_lasso selection_cloud_loaded eq_refl)
    as ((h' & Hrun & Hcloud & Hpos & _) & _); [done|].
  destruct Hcloud as (_ & _ & Hcol & Horig & _).
  exists h'. split; [exact Hrun|]. split; [exact Hcol|].
  split; [exact Horig|exact Hpos].
Defined.

(** A drag along the top of a square, in steps of 5 pixels. *)
Lemma sparse_gesture_kept_witness :
  mouseMoves
    [(canvas_rect, mkMouseEvent (of_Z 105) (of_Z 100));
     (canvas_rect, mkMouseEvent (of_Z 105) (of_Z 105))]
    (handleMouseDown canvas_rect (mkMouseEvent (of_Z 100) (of_Z 100))
       (mkLassoSelector false []))
  = Return (mkLassoSelector true [pt 100 100; pt 105 100; pt 105 105]).
Proof.
  apply (sparse_gesture_kept canvas_rect (mkMouseEvent (of_Z 100) (of_Z 100))
           (mkLassoSelector false [])
           [(canvas_rect, mkMouseEvent (of_Z 105) (of_Z 100));
            (canvas_rect, mkMouseEvent (of_Z 105) (of_Z 105))]).
  repeat split; by vm_compute.
Defined.
